(** * The Layer III bit reservoir of shine (src/lib/reservoir.c)

    A shallow embedding of the four reservoir routines [ResvFrameBegin],
    [ResvMaxBits], [ResvAdjust] and [ResvFrameEnd], and the properties of
    the bit-budget accounting they implement.

    Conventions of the embedding.
    - A C [int] is a [Z].  Signed overflow is undefined in C, so the model
      describes the executions in which every intermediate value fits an
      [int]; [/] is [Z.quot], [%] is [Z.rem] (C99 truncation towards zero),
      [x << k] is [Z.shiftl x k] and [x & 1] is [Z.land x 1].  A division by
      zero (no channel at all) is undefined in C; [Z.quot] gives 0.
    - A C [double] is a binary64 [spec_float] with the IEEE operations of
      the Standard Library ([SFmul], [SFsub] at precision 53).
    - The configuration is passed by pointer and mutated in place in C; here
      every routine takes the configuration and returns the updated one.
    - [types.h] is not among the sources at hand: the structures below keep
      the fields that reservoir.c reads or writes.  [part2_3_length] is a
      [Z] that is never wrapped: this is what the code computes, whether the
      field is declared [int] or [unsigned], as long as the field and the
      sums stored into it are not negative.  With an [unsigned] field a
      negative sum wraps and line 149 compares as unsigned, so the
      properties that speak of the plan taken, of the field values or of
      [resvDrain] are stated for a stuffing that is not negative; it is not
      negative whenever [ResvSize] and [ResvMax] are not, as on every run of
      the calling protocol. *)

From Stdlib Require Import ZArith Lia Bool SpecFloat.
From stdpp Require Import base option list relations.

Local Open Scope Z_scope.

(** ** Data model *)

(** [gr_info]: the per granule and channel side information.  The reservoir
    only touches [part2_3_length], the number of bits of the granule.  Its
    declaration is in [types.h]; the value is kept as an unwrapped [Z],
    which agrees with an [int] and with an [unsigned] field on the values
    that are not negative. *)
Record gr_info := mk_gr_info {
  part2_3_length : Z
}.

(** [L3_side_info_t]: [gr[2].ch[2]] is a list of rows, one row per granule,
    one [gr_info] per channel. *)
Record L3_side_info_t := mk_side_info {
  main_data_begin : Z;
  resvDrain : Z;
  gr : list (list gr_info)
}.

Record wave_t := mk_wave {
  channels : Z
}.

Record shine_global_config := mk_config {
  wave : wave_t;
  mean_bits : Z;
  ResvSize : Z;
  ResvMax : Z;
  side_info : L3_side_info_t
}.

(** Field updates ([config->f = v]). *)
Definition set_ResvMax (v : Z) (config : shine_global_config) : shine_global_config :=
  {| wave := wave config; mean_bits := mean_bits config;
     ResvSize := ResvSize config; ResvMax := v;
     side_info := side_info config |}.

Definition set_ResvSize (v : Z) (config : shine_global_config) : shine_global_config :=
  {| wave := wave config; mean_bits := mean_bits config;
     ResvSize := v; ResvMax := ResvMax config;
     side_info := side_info config |}.

Definition set_mean_bits (v : Z) (config : shine_global_config) : shine_global_config :=
  {| wave := wave config; mean_bits := v;
     ResvSize := ResvSize config; ResvMax := ResvMax config;
     side_info := side_info config |}.

Definition set_side_info (s : L3_side_info_t) (config : shine_global_config)
  : shine_global_config :=
  {| wave := wave config; mean_bits := mean_bits config;
     ResvSize := ResvSize config; ResvMax := ResvMax config;
     side_info := s |}.

Definition set_main_data_begin (v : Z) (s : L3_side_info_t) : L3_side_info_t :=
  {| main_data_begin := v; resvDrain := resvDrain s; gr := gr s |}.

Definition set_resvDrain (v : Z) (s : L3_side_info_t) : L3_side_info_t :=
  {| main_data_begin := main_data_begin s; resvDrain := v; gr := gr s |}.

(** [l3_side->gr[g].ch[c].part2_3_length].  An index outside the array is
    undefined behaviour in C; the model reads 0 there. *)
Definition get_length (s : L3_side_info_t) (g c : nat) : Z :=
  match gr s !! g with
  | Some row => match row !! c with
                | Some gi => part2_3_length gi
                | None => 0
                end
  | None => 0
  end.

(** [l3_side->gr[g].ch[c].part2_3_length = v]; a write outside the array
    (undefined in C) leaves the model unchanged. *)
Definition set_length (s : L3_side_info_t) (g c : nat) (v : Z) : L3_side_info_t :=
  {| main_data_begin := main_data_begin s; resvDrain := resvDrain s;
     gr := alter (fun row => <[c := mk_gr_info v]> row) g (gr s) |}.

(** ** ResvFrameBegin (reservoir.c, lines 19-49) *)

Definition ResvFrameBegin (frameLength : Z) (config : shine_global_config)
  : shine_global_config :=
  let l3_side := side_info config in
  let mean_bits := mean_bits config in
  let resvLimit := 4088 in
  let expectedResvSize := Z.shiftl (main_data_begin l3_side) 3 in
  let fullFrameBits := Z.shiftl mean_bits 1 in
  let config :=
    if 7680 <? frameLength
    then set_ResvMax 0 config
    else set_ResvMax (7680 - frameLength) config in
  if resvLimit <? ResvMax config
  then set_ResvMax resvLimit config
  else config.

(** ** ResvMaxBits (reservoir.c, lines 58-90) *)

(** The literal [3.1] as a binary64 value: 6980579422424269 * 2^-51. *)
Definition double_3_1 : spec_float :=
  S754_finite false 6980579422424269 (-51).

(** Conversion of an [int] to [double] (exact on 32-bit values). *)
Definition int_to_double (z : Z) : spec_float :=
  binary_normalize 53 1024 z 0 false.

(** Conversion of a [double] to [int]: the fractional part is discarded.
    C leaves the conversion of a NaN or an infinity undefined; the model
    returns 0 for them. *)
Definition double_to_int (x : spec_float) : Z :=
  match x with
  | S754_finite s m e => cond_Zopp s (Z.shiftl (Zpos m) e)
  | _ => 0
  end.

Definition ResvMaxBits (pe : spec_float) (config : shine_global_config) : Z :=
  let mean_bits := mean_bits config in
  let mean_bits := Z.quot mean_bits (channels (wave config)) in
  let max_bits := mean_bits in
  let max_bits := if 4095 <? max_bits then 4095 else max_bits in
  if ResvMax config =? 0 then max_bits
  else
    let more_bits :=
      double_to_int
        (SFsub 53 1024 (SFmul 53 1024 pe double_3_1) (int_to_double mean_bits)) in
    let add_bits := 0 in
    let add_bits :=
      if 100 <? more_bits then
        let frac := Z.quot (ResvSize config * 6) 10 in
        if frac <? more_bits then frac else more_bits
      else add_bits in
    let over_bits :=
      ResvSize config - Z.quot (Z.shiftl (ResvMax config) 3) 10 - add_bits in
    let add_bits := if 0 <? over_bits then add_bits + over_bits else add_bits in
    let max_bits := max_bits + add_bits in
    let max_bits := if 4095 <? max_bits then 4095 else max_bits in
    max_bits.

(** ** ResvAdjust (reservoir.c, lines 98-101) *)

Definition ResvAdjust (gi : gr_info) (config : shine_global_config)
  : shine_global_config :=
  set_ResvSize
    (ResvSize config
     + (Z.quot (mean_bits config) (channels (wave config)) - part2_3_length gi))
    config.

(** ** ResvFrameEnd (reservoir.c, lines 112-174) *)

(** Lines 120-138: parity correction, clamp to [ResvMax], byte alignment.
    Returns the configuration with the new [ResvSize] and the value of the
    local [stuffingBits] at line 140. *)
Definition ResvFrameEnd_reservoir (config : shine_global_config)
  : shine_global_config * Z :=
  let mean_bits := mean_bits config in
  let ancillary_pad := 0 in
  let config :=
    if (channels (wave config) =? 2) && negb (Z.land mean_bits 1 =? 0)
    then set_ResvSize (ResvSize config + 1) config
    else config in
  let over_bits := ResvSize config - ResvMax config in
  let over_bits := if over_bits <? 0 then 0 else over_bits in
  let config := set_ResvSize (ResvSize config - over_bits) config in
  let stuffingBits := over_bits + ancillary_pad in
  let over_bits := Z.rem (ResvSize config) 8 in
  if negb (over_bits =? 0)
  then (set_ResvSize (ResvSize config - over_bits) config, stuffingBits + over_bits)
  else (config, stuffingBits).

(** Lines 155-165: the inner loop over the channels of granule [g]; [n] is
    the number of iterations left, [ch] the loop counter.  The [break]
    leaves the loop with the side information and the pool as they are. *)
Fixpoint planB_channels (n : nat) (g ch : nat) (l3_side : L3_side_info_t)
    (stuffingBits : Z) : L3_side_info_t * Z :=
  match n with
  | O => (l3_side, stuffingBits)
  | S n' =>
      if stuffingBits =? 0 then (l3_side, stuffingBits)
      else
        let extraBits := 4095 - get_length l3_side g ch in
        let bitsThisGr :=
          if extraBits <? stuffingBits then extraBits else stuffingBits in
        planB_channels n' g (S ch)
          (set_length l3_side g ch (get_length l3_side g ch + bitsThisGr))
          (stuffingBits - bitsThisGr)
  end.

(** Line 154: the outer loop over the granules; [n] iterations left, [g] the
    loop counter, [nch] the trip count of the inner loop. *)
Fixpoint planB_granules (n : nat) (g : nat) (nch : nat) (l3_side : L3_side_info_t)
    (stuffingBits : Z) : L3_side_info_t * Z :=
  match n with
  | O => (l3_side, stuffingBits)
  | S n' =>
      let '(l3_side, stuffingBits) :=
        planB_channels nch g 0 l3_side stuffingBits in
      planB_granules n' (S g) nch l3_side stuffingBits
  end.

(** Lines 140-173: the distribution of the stuffing bits.  The test of line
    149 and the additions of lines 150 and 163 are done on unwrapped
    integers: for a stuffing that is not negative this is the C arithmetic
    for an [int] as for an [unsigned] field; a negative sum
    [part2_3_length + stuffingBits] would wrap in an [unsigned] field, and
    the properties of this part exclude it by hypothesis. *)
Definition ResvFrameEnd_stuffing (config : shine_global_config) (stuffingBits : Z)
  : shine_global_config :=
  let l3_side := side_info config in
  if negb (stuffingBits =? 0) then
    if get_length l3_side 0 0 + stuffingBits <? 4095 then
      set_side_info
        (set_length l3_side 0 0 (get_length l3_side 0 0 + stuffingBits)) config
    else
      let '(l3_side, stuffingBits) :=
        planB_granules 2 0 (Z.to_nat (channels (wave config))) l3_side stuffingBits in
      set_side_info (set_resvDrain stuffingBits l3_side) config
  else config.

Definition ResvFrameEnd (config : shine_global_config) : shine_global_config :=
  let '(config, stuffingBits) := ResvFrameEnd_reservoir config in
  ResvFrameEnd_stuffing config stuffingBits.

(** ** The quantities of the frame-end reconciliation, as the specification
    names them (section 4.4, steps 1 to 3) *)

(** Step 1: the occupancy after the parity correction. *)
Definition parity_corrected (config : shine_global_config) : Z :=
  if (channels (wave config) =? 2) && Z.odd (mean_bits config)
  then ResvSize config + 1
  else ResvSize config.

(** Step 2: [overflow = max(0, occupancy - capacity)]. *)
Definition overflow (config : shine_global_config) : Z :=
  Z.max 0 (parity_corrected config - ResvMax config).

(** Step 3: [remainder = occupancy mod 8], on the clamped occupancy. *)
Definition alignment_remainder (config : shine_global_config) : Z :=
  Z.rem (parity_corrected config - overflow config) 8.

(** The pool handed to steps 4 to 7. *)
Definition frame_stuffing (config : shine_global_config) : Z :=
  overflow config + alignment_remainder config.

(** The branch of lines 149-172 that runs: plan B is entered when there is
    stuffing and the test of line 149 fails. *)
Definition planB_taken (config : shine_global_config) : bool :=
  let '(config1, stuffingBits) := ResvFrameEnd_reservoir config in
  negb (stuffingBits =? 0)
  && negb (get_length (side_info config1) 0 0 + stuffingBits <? 4095).

(** Plan B in the words of the specification (step 6): the cells are visited
    in the given order, each one absorbs [min(room, pool)], and the walk stops
    as soon as the pool is empty.  The result is the side information and the
    pool that is left. *)
Fixpoint planB_spec (cells : list (nat * nat)) (s : L3_side_info_t) (pool : Z)
  : L3_side_info_t * Z :=
  match cells with
  | [] => (s, pool)
  | (g, c) :: rest =>
      if pool =? 0 then (s, pool)
      else
        let room := 4095 - get_length s g c in
        let absorbed := Z.min room pool in
        planB_spec rest (set_length s g c (get_length s g c + absorbed))
          (pool - absorbed)
  end.

(** Granule 0 then granule 1, and within a granule the channels from 0 up
    to [nch - 1]. *)
Definition cell_order (nch : nat) : list (nat * nat) :=
  flat_map (fun g => map (pair g) (seq 0 nch)) [0%nat; 1%nat].

(** The sum of the [part2_3_length] fields of the whole array. *)
Definition row_bits (row : list gr_info) : Z :=
  foldr (fun gi acc => part2_3_length gi + acc) 0 row.

Definition total_bits (s : L3_side_info_t) : Z :=
  foldr (fun row acc => row_bits row + acc) 0 (gr s).

(** The array has its declared shape, two granules of two channels. *)
Definition grid_2x2 (s : L3_side_info_t) : bool :=
  match gr s with
  | [[_; _]; [_; _]] => true
  | _ => false
  end.

(** A cell index inside the two by two array. *)
Definition in_grid (cell : nat * nat) : Prop :=
  (cell.1 < 2)%nat /\ (cell.2 < 2)%nat.

(** ** The calling protocol (specification, section 2)

    [FrameBegin], then for every granule [MaxBitsForGranule], the quantizer,
    [Adjust], then [FrameEnd].  The driver may set [mean_bits] and the side
    information before a frame starts; the quantizer spends at most what
    [ResvMaxBits] granted, stores the count in a cell and reports it. *)
Inductive phase := BetweenFrames | FrameActive.

Inductive step : phase * shine_global_config -> phase * shine_global_config -> Prop :=
| step_FrameBegin frameLength mean l3_side config :
    step (BetweenFrames, config)
         (FrameActive,
          ResvFrameBegin frameLength
            (set_side_info l3_side (set_mean_bits mean config)))
| step_granule pe g c used config :
    0 <= used <= ResvMaxBits pe config ->
    step (FrameActive, config)
         (FrameActive,
          ResvAdjust (mk_gr_info used)
            (set_side_info (set_length (side_info config) g c used) config))
| step_FrameEnd config :
    step (FrameActive, config) (BetweenFrames, ResvFrameEnd config).

(** The invariant of the protocol: the reservoir size is not negative, and
    inside a frame the limit set by [ResvFrameBegin] is not negative. *)
Definition protocol_inv (st : phase * shine_global_config) : Prop :=
  0 <= ResvSize st.2 /\ (st.1 = FrameActive -> 0 <= ResvMax st.2).

(** ** Sample configurations *)

Definition grid_of (a b c d : Z) : list (list gr_info) :=
  [[mk_gr_info a; mk_gr_info b]; [mk_gr_info c; mk_gr_info d]].

(** [sample nch mean size max drain cells]. *)
Definition sample (nch mean size max drain : Z) (cells : list (list gr_info))
  : shine_global_config :=
  mk_config (mk_wave nch) mean size max (mk_side_info 0 drain cells).

(** ** Notions used by the further properties *)

(** The room left in the given cells: the sum of [4095 - part2_3_length]. *)
Definition headroom (cells : list (nat * nat)) (s : L3_side_info_t) : Z :=
  foldr (fun cell acc => (4095 - get_length s cell.1 cell.2) + acc) 0 cells.

(** Every field respects the width of [part2_3_length] (12 bits). *)
Definition fields_capped (s : L3_side_info_t) : Prop :=
  forall g c : nat, get_length s g c <= 4095.

(** [ResvAdjust] called once for each granule of the list, in order. *)
Definition adjust_all (gis : list gr_info) (config : shine_global_config)
  : shine_global_config :=
  foldl (fun config gi => ResvAdjust gi config) config gis.

(** What the protocol keeps besides [protocol_inv]: between two frames the
    reservoir is byte aligned and at most 4088 bits, and within a frame the
    limit is at most 4088. *)
Definition protocol_bounds (st : phase * shine_global_config) : Prop :=
  0 <= ResvSize st.2
  /\ (st.1 = FrameActive -> 0 <= ResvMax st.2 <= 4088)
  /\ (st.1 = BetweenFrames -> ResvSize st.2 <= 4088 /\ Z.rem (ResvSize st.2) 8 = 0).

(** * Properties *)

(** Case analysis on the comparisons [a <? b] of the goal, innermost first. *)
Ltac split_ltb :=
  repeat match goal with
         | |- context [?a <? ?b] =>
             lazymatch a with context [_ <? _] => fail | _ => idtac end;
             lazymatch b with context [_ <? _] => fail | _ => idtac end;
             destruct (Z.ltb_spec a b)
         end.

(** ** Field updates *)

Lemma config_eq (c1 c2 : shine_global_config) :
  wave c1 = wave c2 -> mean_bits c1 = mean_bits c2 ->
  ResvSize c1 = ResvSize c2 -> ResvMax c1 = ResvMax c2 ->
  side_info c1 = side_info c2 -> c1 = c2.
Proof. destruct c1, c2; simpl; congruence. Qed.

Lemma set_ResvMax_same config : set_ResvMax (ResvMax config) config = config.
Proof. by destruct config. Qed.

Lemma set_ResvSize_same config : set_ResvSize (ResvSize config) config = config.
Proof. by destruct config. Qed.

(** ** ResvFrameBegin *)

Section FrameBegin.
Variable frameLength : Z.
Variable config : shine_global_config.

Lemma ResvFrameBegin_unfold :
  ResvFrameBegin frameLength config =
  set_ResvMax
    (if 7680 <? frameLength then 0 else Z.min (7680 - frameLength) 4088)
    config.
Proof.
  unfold ResvFrameBegin. destruct (Z.ltb_spec 7680 frameLength); simpl.
  - reflexivity.
  - destruct (Z.ltb_spec 4088 (7680 - frameLength));
      unfold set_ResvMax; simpl; f_equal; lia.
Qed.

Lemma ResvFrameBegin_ResvMax_range :
  0 <= ResvMax (ResvFrameBegin frameLength config) <= 4088.
Proof.
  rewrite ResvFrameBegin_unfold; simpl.
  destruct (Z.ltb_spec 7680 frameLength); lia.
Qed.
End FrameBegin.

(** C7 (as amended).  [ResvFrameBegin] sets the capacity to 0 when the frame is
    longer than 7680 bits and to [min (7680 - frameLength) 4088] otherwise;
    hence the capacity is [max 0 (min (7680 - frameLength) 4088)], it lies
    between 0 and 4088, and it is at most [min (7680 - frameLength) 4088]
    exactly when that minimum is not negative. *)
Theorem ResvFrameBegin_capacity (frameLength : Z) (config : shine_global_config) :
  let capacity := ResvMax (ResvFrameBegin frameLength config) in
  capacity = (if 7680 <? frameLength then 0 else Z.min (7680 - frameLength) 4088)
  /\ capacity = Z.max 0 (Z.min (7680 - frameLength) 4088)
  /\ 0 <= capacity <= 4088
  /\ (capacity <= Z.min (7680 - frameLength) 4088 <-> frameLength <= 7680).
Proof.
  intros capacity. subst capacity.
  rewrite ResvFrameBegin_unfold; simpl.
  destruct (Z.ltb_spec 7680 frameLength); lia.
Qed.

(** C7, the claim as written fails: a frame of 7681 bits gets capacity 0,
    which is above [min (7680 - 7681) 4088 = -1]. *)
Lemma ResvFrameBegin_capacity_above_min :
  ~ (0 <= ResvMax (ResvFrameBegin 7681 (sample 2 1000 0 0 0 (grid_of 0 0 0 0)))
       <= Z.min (7680 - 7681) 4088).
Proof. vm_compute. intros [_ H]. apply H. reflexivity. Qed.

(** C10.  [ResvFrameBegin] changes [ResvMax] and nothing else: the reservoir
    size, the granule fields, [resvDrain] and every other field are the ones on
    entry; and the value of [main_data_begin], from which the expected
    reservoir size is computed, does not influence the result. *)
Theorem ResvFrameBegin_frame (frameLength : Z) (config : shine_global_config) :
  ResvFrameBegin frameLength config
    = set_ResvMax (ResvMax (ResvFrameBegin frameLength config)) config
  /\ ResvSize (ResvFrameBegin frameLength config) = ResvSize config
  /\ gr (side_info (ResvFrameBegin frameLength config)) = gr (side_info config)
  /\ resvDrain (side_info (ResvFrameBegin frameLength config))
       = resvDrain (side_info config)
  /\ (forall m : Z,
        ResvFrameBegin frameLength
          (set_side_info (set_main_data_begin m (side_info config)) config)
        = set_side_info
            (set_main_data_begin m (side_info (ResvFrameBegin frameLength config)))
            (ResvFrameBegin frameLength config)).
Proof.
  rewrite !ResvFrameBegin_unfold. repeat split; intros;
    rewrite ?ResvFrameBegin_unfold; reflexivity.
Qed.

(** ** ResvMaxBits *)

Lemma ResvMaxBits_le_4095 pe config : ResvMaxBits pe config <= 4095.
Proof.
  unfold ResvMaxBits.
  destruct (ResvMax config =? 0).
  - destruct (Z.ltb_spec 4095 (mean_bits config ÷ channels (wave config))); lia.
  - cbv zeta.
    match goal with |- (if 4095 <? ?x then _ else _) <= _ =>
      destruct (Z.ltb_spec 4095 x); lia end.
Qed.

(** What [ResvMaxBits] grants never exceeds the nominal allotment by more
    than the reservoir holds, when the reservoir and its limit are not
    negative. *)
Lemma ResvMaxBits_within_reservoir pe config :
  0 <= ResvSize config -> 0 <= ResvMax config ->
  ResvMaxBits pe config
    <= Z.quot (mean_bits config) (channels (wave config)) + ResvSize config.
Proof.
  intros Hsize Hmax. unfold ResvMaxBits.
  set (base := mean_bits config ÷ channels (wave config)).
  destruct (ResvMax config =? 0).
  - destruct (Z.ltb_spec 4095 base); lia.
  - cbv zeta.
    generalize (double_to_int
      (SFsub 53 1024 (SFmul 53 1024 pe double_3_1) (int_to_double base))).
    intros more_bits.
    assert (Hfrac : 0 <= ResvSize config * 6 ÷ 10 <= ResvSize config).
    { split; [apply Z.quot_pos; lia|].
      apply Z.quot_le_upper_bound; lia. }
    assert (Hlim : 0 <= Z.shiftl (ResvMax config) 3 ÷ 10).
    { rewrite Z.shiftl_mul_pow2 by lia. apply Z.quot_pos; lia. }
    split_ltb; lia.
Qed.

Lemma ResvMaxBits_nonneg pe config :
  0 <= ResvSize config ->
  0 <= Z.quot (mean_bits config) (channels (wave config)) ->
  0 <= ResvMaxBits pe config.
Proof.
  intros Hsize Hbase. unfold ResvMaxBits.
  set (base := mean_bits config ÷ channels (wave config)) in *.
  destruct (ResvMax config =? 0).
  - destruct (Z.ltb_spec 4095 base); lia.
  - cbv zeta.
    generalize (double_to_int
      (SFsub 53 1024 (SFmul 53 1024 pe double_3_1) (int_to_double base))).
    intros more_bits.
    assert (Hfrac : 0 <= ResvSize config * 6 ÷ 10) by (apply Z.quot_pos; lia).
    split_ltb; lia.
Qed.

(** C5 (as amended).  With a reservoir that is not in deficit and a nominal
    allotment that is not negative ([mean_bits >= 0], at least one channel),
    [ResvMaxBits] returns a value between 0 and 4095, whatever the perceptual
    entropy and the reservoir limit are. *)
Theorem ResvMaxBits_range (pe : spec_float) (config : shine_global_config) :
  0 <= ResvSize config ->
  0 <= mean_bits config ->
  1 <= channels (wave config) ->
  0 <= ResvMaxBits pe config <= 4095.
Proof.
  intros Hsize Hmean Hch. split.
  - apply ResvMaxBits_nonneg; [done|]. apply Z.quot_pos; lia.
  - apply ResvMaxBits_le_4095.
Qed.

Lemma ResvMaxBits_range_witness :
  0 <= ResvMaxBits (int_to_double 1000)
         (sample 2 1000 2000 4088 0 (grid_of 0 0 0 0)) <= 4095.
Proof. apply ResvMaxBits_range; simpl; lia. Defined.

(** C5, the claim as written fails: with the reservoir 1000 bits in deficit,
    a limit of 4088, 1000 mean bits for two channels and a perceptual
    entropy of 1000.0, the grant is -100. *)
Lemma ResvMaxBits_negative_grant :
  ResvMaxBits (int_to_double 1000)
    (sample 2 1000 (-1000) 4088 0 (grid_of 0 0 0 0)) = -100
  /\ ~ (0 <= ResvMaxBits (int_to_double 1000)
               (sample 2 1000 (-1000) 4088 0 (grid_of 0 0 0 0)) <= 4095).
Proof. split; [reflexivity|]. vm_compute. intros [H _]. apply H. reflexivity. Qed.

(** C6 (as amended).  With [ResvMax = 0] the grant is the nominal allotment
    [mean_bits / channels] capped at 4095, for every perceptual entropy and
    every reservoir size. *)
Theorem ResvMaxBits_reservoir_disabled (pe : spec_float) (config : shine_global_config) :
  ResvMax config = 0 ->
  ResvMaxBits pe config
    = Z.min (Z.quot (mean_bits config) (channels (wave config))) 4095.
Proof.
  intros Hmax. unfold ResvMaxBits. rewrite Hmax. simpl.
  destruct (Z.ltb_spec 4095 (mean_bits config ÷ channels (wave config))); lia.
Qed.

Lemma ResvMaxBits_reservoir_disabled_witness :
  ResvMaxBits (int_to_double 700) (sample 2 1000 64 0 0 (grid_of 0 0 0 0))
    = Z.min (Z.quot 1000 2) 4095.
Proof.
  apply (ResvMaxBits_reservoir_disabled (int_to_double 700)
           (sample 2 1000 64 0 0 (grid_of 0 0 0 0))).
  reflexivity.
Defined.

(** C6, the claim as written fails: one channel with 5000 mean bits and the
    reservoir disabled is granted 4095 bits, not 5000 / 1. *)
Lemma ResvMaxBits_disabled_is_capped :
  ResvMax (sample 1 5000 0 0 0 (grid_of 0 0 0 0)) = 0
  /\ ResvMaxBits (int_to_double 0) (sample 1 5000 0 0 0 (grid_of 0 0 0 0)) = 4095
  /\ ResvMaxBits (int_to_double 0) (sample 1 5000 0 0 0 (grid_of 0 0 0 0))
       <> Z.quot 5000 1.
Proof. repeat split. vm_compute. discriminate. Qed.

(** ** ResvAdjust *)

(** C8 (as amended).  [ResvAdjust] replaces the reservoir size by
    [ResvSize + mean_bits / channels - part2_3_length], with the quotient as
    it is (no cap at 4095 and no clamping of the result), and leaves every
    other field of the configuration alone. *)
Theorem ResvAdjust_spec (gi : gr_info) (config : shine_global_config) :
  ResvAdjust gi config
    = set_ResvSize
        (ResvSize config + Z.quot (mean_bits config) (channels (wave config))
           - part2_3_length gi)
        config
  /\ ResvMax (ResvAdjust gi config) = ResvMax config
  /\ mean_bits (ResvAdjust gi config) = mean_bits config
  /\ wave (ResvAdjust gi config) = wave config
  /\ side_info (ResvAdjust gi config) = side_info config.
Proof.
  unfold ResvAdjust. repeat split.
  unfold set_ResvSize. f_equal. lia.
Qed.

(** C8, the claim as written fails: with 5000 mean bits on one channel and a
    granule that used nothing, the reservoir grows by 5000, not by the capped
    allotment 4095. *)
Lemma ResvAdjust_uncapped :
  ResvSize (ResvAdjust (mk_gr_info 0) (sample 1 5000 0 4088 0 (grid_of 0 0 0 0)))
    = 5000
  /\ ResvSize (ResvAdjust (mk_gr_info 0) (sample 1 5000 0 4088 0 (grid_of 0 0 0 0)))
       <> 0 + Z.min (Z.quot 5000 1) 4095 - 0.
Proof. split; [reflexivity|]. vm_compute. discriminate. Qed.

(** ** ResvFrameEnd: the reservoir part *)

Lemma land_1_odd (x : Z) : negb (Z.land x 1 =? 0) = Z.odd x.
Proof.
  replace (Z.land x 1) with (x mod 2).
  - rewrite Zmod_odd. by destruct (Z.odd x).
  - symmetry. apply (Z.land_ones x 1). lia.
Qed.

Lemma set_ResvSize_twice a b config :
  set_ResvSize a (set_ResvSize b config) = set_ResvSize a config.
Proof. reflexivity. Qed.

Lemma clamp_below_0 (x : Z) : (if x <? 0 then 0 else x) = Z.max 0 x.
Proof. destruct (Z.ltb_spec x 0); lia. Qed.

(** Lines 120-138 compute the quantities of steps 1 to 3. *)
Lemma ResvFrameEnd_reservoir_spec config :
  ResvFrameEnd_reservoir config
    = (set_ResvSize
         (parity_corrected config - overflow config - alignment_remainder config)
         config,
       frame_stuffing config).
Proof.
  unfold ResvFrameEnd_reservoir, frame_stuffing, alignment_remainder, overflow,
    parity_corrected.
  rewrite land_1_odd.
  destruct ((channels (wave config) =? 2) && Z.odd (mean_bits config));
    cbn [ResvSize ResvMax set_ResvSize]; rewrite clamp_below_0.
  all: match goal with
       | |- context [Z.rem ?a 8 =? 0] =>
           destruct (Z.eqb_spec (Z.rem a 8) 0) as [E|E]; cbn [negb];
           [rewrite ?E | ]
       end.
  all: apply pair_equal_spec; split; [apply config_eq; simpl; try done|]; lia.
Qed.

Lemma ResvFrameEnd_stuffing_ResvSize config stuffingBits :
  ResvSize (ResvFrameEnd_stuffing config stuffingBits) = ResvSize config
  /\ ResvMax (ResvFrameEnd_stuffing config stuffingBits) = ResvMax config.
Proof.
  unfold ResvFrameEnd_stuffing.
  destruct (negb (stuffingBits =? 0)); [|done].
  destruct (_ <? 4095); [done|].
  by destruct (planB_granules _ _ _ _ _).
Qed.

Lemma ResvFrameEnd_ResvSize config :
  ResvSize (ResvFrameEnd config)
    = parity_corrected config - overflow config - alignment_remainder config
  /\ ResvMax (ResvFrameEnd config) = ResvMax config.
Proof.
  unfold ResvFrameEnd. rewrite ResvFrameEnd_reservoir_spec.
  destruct (ResvFrameEnd_stuffing_ResvSize
              (set_ResvSize
                 (parity_corrected config - overflow config
                    - alignment_remainder config) config)
              (frame_stuffing config)) as [-> ->].
  done.
Qed.

(** The size left by [ResvFrameEnd] is the clamped size rounded towards zero
    to a multiple of 8. *)
Lemma ResvFrameEnd_ResvSize_quot config :
  ResvSize (ResvFrameEnd config)
    = 8 * Z.quot (Z.min (parity_corrected config) (ResvMax config)) 8.
Proof.
  destruct (ResvFrameEnd_ResvSize config) as [-> _].
  unfold alignment_remainder, overflow.
  replace (parity_corrected config - Z.max 0 (parity_corrected config - ResvMax config))
    with (Z.min (parity_corrected config) (ResvMax config)) by lia.
  pose proof (Z.quot_rem' (Z.min (parity_corrected config) (ResvMax config)) 8).
  lia.
Qed.

(** C2.  For every reservoir size on entry (above the limit, misaligned or
    negative) and every limit that [ResvFrameBegin] can have set, that is
    every limit that is not negative ([ResvFrameBegin_ResvMax_range];
    neither [ResvAdjust] nor [ResvFrameEnd] writes [ResvMax]), the size
    after [ResvFrameEnd] is a multiple of 8 and at most the limit. *)
Theorem ResvFrameEnd_aligned_and_bounded (config : shine_global_config) :
  0 <= ResvMax config ->
  ResvSize (ResvFrameEnd config) mod 8 = 0
  /\ Z.rem (ResvSize (ResvFrameEnd config)) 8 = 0
  /\ ResvSize (ResvFrameEnd config) <= ResvMax (ResvFrameEnd config).
Proof.
  intros Hmax.
  destruct (ResvFrameEnd_ResvSize config) as [_ ->].
  rewrite ResvFrameEnd_ResvSize_quot.
  set (m := Z.min (parity_corrected config) (ResvMax config)).
  repeat split.
  - rewrite Z.mul_comm. apply Z_mod_mult.
  - rewrite Z.mul_comm. apply Z.rem_mul. lia.
  - pose proof (Z.quot_rem' m 8).
    destruct (Z.le_gt_cases 0 m).
    + pose proof (Z.rem_nonneg m 8). lia.
    + pose proof (Z.rem_bound_neg_neg m 8).
      assert (m ÷ 8 <= 0) by (apply Z.quot_le_upper_bound; lia). lia.
Qed.

Lemma ResvFrameEnd_aligned_and_bounded_witness :
  ResvSize (ResvFrameEnd (sample 2 1001 (-13) 4088 0 (grid_of 0 0 0 0))) mod 8 = 0
  /\ Z.rem (ResvSize (ResvFrameEnd (sample 2 1001 (-13) 4088 0 (grid_of 0 0 0 0)))) 8 = 0
  /\ ResvSize (ResvFrameEnd (sample 2 1001 (-13) 4088 0 (grid_of 0 0 0 0)))
       <= ResvMax (ResvFrameEnd (sample 2 1001 (-13) 4088 0 (grid_of 0 0 0 0))).
Proof.
  apply (ResvFrameEnd_aligned_and_bounded
           (sample 2 1001 (-13) 4088 0 (grid_of 0 0 0 0))).
  simpl. lia.
Defined.

(** ** ResvFrameEnd: the two loops of plan B against the specification *)

Lemma min_by_ltb (a b : Z) : (if a <? b then a else b) = Z.min a b.
Proof. destruct (Z.ltb_spec a b); lia. Qed.

Lemma planB_spec_empty_pool cells s : planB_spec cells s 0 = (s, 0).
Proof. destruct cells as [|[g c] rest]; reflexivity. Qed.

Lemma planB_spec_app cells1 cells2 s pool :
  planB_spec (cells1 ++ cells2) s pool
    = planB_spec cells2 (planB_spec cells1 s pool).1 (planB_spec cells1 s pool).2.
Proof.
  revert s pool. induction cells1 as [|[g c] rest IH]; intros s pool; simpl.
  - reflexivity.
  - destruct (Z.eqb_spec pool 0) as [->|Hne]; simpl.
    + symmetry. apply planB_spec_empty_pool.
    + apply IH.
Qed.

(** The inner loop walks the cells [(g, ch)], [(g, ch+1)], ... *)
Lemma planB_channels_spec n g ch s pool :
  planB_channels n g ch s pool = planB_spec (map (pair g) (seq ch n)) s pool.
Proof.
  revert ch s pool. induction n as [|n IH]; intros ch s pool; simpl.
  - reflexivity.
  - destruct (pool =? 0); [reflexivity|].
    rewrite min_by_ltb. apply IH.
Qed.

(** The outer loop walks the granules [g], [g+1], ...; a [break] of the inner
    loop leaves an empty pool, on which the later granules do nothing. *)
Lemma planB_granules_spec n g nch s pool :
  planB_granules n g nch s pool
    = planB_spec (flat_map (fun g => map (pair g) (seq 0 nch)) (seq g n)) s pool.
Proof.
  revert g s pool. induction n as [|n IH]; intros g s pool; simpl.
  - reflexivity.
  - rewrite planB_spec_app, <- planB_channels_spec.
    destruct (planB_channels nch g 0 s pool) as [s' pool']. apply IH.
Qed.

Lemma planB_loops_spec nch s pool :
  planB_granules 2 0 nch s pool = planB_spec (cell_order nch) s pool.
Proof. apply planB_granules_spec. Qed.

Lemma ResvFrameEnd_reservoir_side_info config :
  side_info (ResvFrameEnd_reservoir config).1 = side_info config
  /\ wave (ResvFrameEnd_reservoir config).1 = wave config.
Proof. by rewrite ResvFrameEnd_reservoir_spec. Qed.

(** C1.  When the stuffing computed by lines 120-138 is not zero (and not
    negative, which it never is for a reservoir and a limit that are not
    negative), plan A runs exactly when [part2_3_length] of granule 0,
    channel 0 plus the stuffing is below 4095, and then that field receives
    all of it; otherwise plan B runs: the cells are visited granule by
    granule and channel by channel (for two channels: g0c0, g0c1, g1c0,
    g1c1), each one receives the minimum of [4095 - part2_3_length] and of
    the pool, the pool shrinks by as much, the walk stops when the pool is
    empty, and what is left is stored in [resvDrain]. *)
Theorem ResvFrameEnd_plan_selection
    (config config1 : shine_global_config) (stuffingBits : Z) :
  ResvFrameEnd_reservoir config = (config1, stuffingBits) ->
  stuffingBits <> 0 ->
  0 <= stuffingBits ->
  let bitsUsed00 := get_length (side_info config) 0 0 in
  let planB :=
    planB_spec (cell_order (Z.to_nat (channels (wave config))))
      (side_info config) stuffingBits in
  (bitsUsed00 + stuffingBits < 4095 ->
     ResvFrameEnd config
       = set_side_info
           (set_length (side_info config) 0 0 (bitsUsed00 + stuffingBits))
           config1)
  /\ (~ bitsUsed00 + stuffingBits < 4095 ->
        ResvFrameEnd config
          = set_side_info (set_resvDrain planB.2 planB.1) config1)
  /\ cell_order 2 = [(0, 0); (0, 1); (1, 0); (1, 1)]%nat.
Proof.
  intros Hres Hne Hnonneg bitsUsed00 planB. subst bitsUsed00 planB.
  destruct (ResvFrameEnd_reservoir_side_info config) as [Hside Hwave].
  unfold ResvFrameEnd. rewrite Hres in *. simpl in Hside, Hwave.
  unfold ResvFrameEnd_stuffing. rewrite Hside, Hwave, planB_loops_spec.
  destruct (Z.eqb_spec stuffingBits 0) as [|_]; [done|]. cbn [negb].
  repeat split.
  - intros Hlt. destruct (Z.ltb_spec (get_length (side_info config) 0 0 + stuffingBits) 4095);
      [done | lia].
  - intros Hge. destruct (Z.ltb_spec (get_length (side_info config) 0 0 + stuffingBits) 4095);
      [lia|].
    by destruct (planB_spec _ _ _).
Qed.

Lemma ResvFrameEnd_plan_selection_witness :
  ResvFrameEnd (sample 2 1000 20000 0 7 (grid_of 4000 4090 100 0))
    = sample 2 1000 0 0 11810 (grid_of 4095 4095 4095 4095).
Proof.
  destruct (ResvFrameEnd_plan_selection
              (sample 2 1000 20000 0 7 (grid_of 4000 4090 100 0))
              (sample 2 1000 0 0 7 (grid_of 4000 4090 100 0))
              20000) as (_ & HplanB & _).
  - reflexivity.
  - discriminate.
  - lia.
  - rewrite HplanB; [reflexivity|]. vm_compute. discriminate.
Defined.

(** ** ResvFrameEnd: what happens to [resvDrain] *)

Lemma planB_taken_spec config :
  planB_taken config
    = negb (frame_stuffing config =? 0)
      && negb (get_length (side_info config) 0 0 + frame_stuffing config <? 4095).
Proof. unfold planB_taken. by rewrite ResvFrameEnd_reservoir_spec. Qed.

(** [ResvFrameEnd] in terms of the quantities of the specification. *)
Lemma ResvFrameEnd_side_info config :
  side_info (ResvFrameEnd config)
    = if planB_taken config then
        let planB :=
          planB_spec (cell_order (Z.to_nat (channels (wave config))))
            (side_info config) (frame_stuffing config) in
        set_resvDrain planB.2 planB.1
      else if frame_stuffing config =? 0 then side_info config
      else set_length (side_info config) 0 0
             (get_length (side_info config) 0 0 + frame_stuffing config).
Proof.
  rewrite planB_taken_spec.
  unfold ResvFrameEnd. rewrite ResvFrameEnd_reservoir_spec.
  unfold ResvFrameEnd_stuffing. rewrite planB_loops_spec.
  cbn [side_info wave set_ResvSize].
  destruct (frame_stuffing config =? 0); [done|].
  destruct (_ <? 4095); [done|]. cbn [negb andb].
  by destruct (planB_spec _ _ _).
Qed.

Lemma set_length_resvDrain s g c v : resvDrain (set_length s g c v) = resvDrain s.
Proof. reflexivity. Qed.

(** ** ResvFrameEnd: conservation of the stuffing bits *)

Lemma grid_2x2_inv s :
  grid_2x2 s = true -> exists a b c d, gr s = [[a; b]; [c; d]].
Proof.
  unfold grid_2x2.
  destruct (gr s) as [|[|a [|b [|]]] [|[|c [|d [|]]] [|]]]; try discriminate.
  intros _. by exists a, b, c, d.
Qed.

(** A write inside the array changes the total by the difference of the new
    and the old value, and keeps the shape. *)
Lemma set_length_total s g c v :
  grid_2x2 s = true -> (g < 2)%nat -> (c < 2)%nat ->
  total_bits (set_length s g c v) = total_bits s - get_length s g c + v
  /\ grid_2x2 (set_length s g c v) = true.
Proof.
  intros Hgrid Hg Hc.
  destruct (grid_2x2_inv s Hgrid) as (a & b & c' & d & E).
  unfold total_bits, get_length, grid_2x2, set_length. simpl. rewrite E.
  destruct g as [|[|g]], c as [|[|c]]; try lia; simpl; split; (lia || done).
Qed.

Lemma cell_order_in_grid nch : (nch <= 2)%nat -> Forall in_grid (cell_order nch).
Proof.
  intros H. destruct nch as [|[|[|nch]]]; [| | |lia];
    repeat constructor; simpl; lia.
Qed.

(** Plan B moves bits from the pool into the cells: the total of the fields
    plus the pool is the same before and after. *)
Lemma planB_spec_conserves cells s pool :
  grid_2x2 s = true -> Forall in_grid cells ->
  total_bits (planB_spec cells s pool).1 + (planB_spec cells s pool).2
    = total_bits s + pool
  /\ grid_2x2 (planB_spec cells s pool).1 = true.
Proof.
  intros Hgrid Hcells. revert s pool Hgrid.
  induction Hcells as [|[g c] rest [Hg Hc] _ IH]; intros s pool Hgrid; simpl.
  - done.
  - destruct (pool =? 0); [done|].
    set (absorbed := Z.min (4095 - get_length s g c) pool).
    destruct (set_length_total s g c (get_length s g c + absorbed) Hgrid Hg Hc)
      as [Htotal Hgrid'].
    destruct (IH _ (pool - absorbed) Hgrid') as [IHtotal IHgrid].
    split; [lia | done].
Qed.

(** The general balance: the stuffing of the frame is what the fields gained
    plus what [resvDrain] holds on exit, less the stale value that
    [resvDrain] carries over when plan B does not run. *)
Lemma ResvFrameEnd_balance config :
  grid_2x2 (side_info config) = true ->
  channels (wave config) <= 2 ->
  frame_stuffing config
    = (total_bits (side_info (ResvFrameEnd config)) - total_bits (side_info config))
      + resvDrain (side_info (ResvFrameEnd config))
      - (if planB_taken config then 0 else resvDrain (side_info config)).
Proof.
  intros Hgrid Hch. rewrite ResvFrameEnd_side_info.
  destruct (planB_taken config).
  - destruct (planB_spec_conserves
                (cell_order (Z.to_nat (channels (wave config))))
                (side_info config) (frame_stuffing config) Hgrid) as [Htotal _].
    { apply cell_order_in_grid. lia. }
    cbv zeta. unfold total_bits in *. simpl. lia.
  - destruct (Z.eqb_spec (frame_stuffing config) 0) as [->|_]; [lia|].
    destruct (set_length_total (side_info config) 0 0
                (get_length (side_info config) 0 0 + frame_stuffing config) Hgrid)
      as [-> _]; [lia | lia |].
    rewrite set_length_resvDrain. lia.
Qed.

(** C4 (as amended).  For a stuffing that is not negative (as it is
    whenever the reservoir and its limit are not negative), [ResvFrameEnd]
    writes [resvDrain] only on the plan B path, that is when the stuffing is
    not zero and the test of plan A fails: then [resvDrain] is the pool left
    by the walk over the cells, whatever it held before, which on the two by
    two array with at most two channels is the stuffing less the bits that
    the fields gained.  When the stuffing is zero or plan A takes it all,
    [resvDrain] keeps the value it had on entry. *)
Theorem ResvFrameEnd_resvDrain (config : shine_global_config) :
  0 <= frame_stuffing config ->
  planB_taken config
    = negb (frame_stuffing config =? 0)
      && negb (get_length (side_info config) 0 0 + frame_stuffing config <? 4095)
  /\ resvDrain (side_info (ResvFrameEnd config))
     = (if planB_taken config
        then (planB_spec (cell_order (Z.to_nat (channels (wave config))))
                (side_info config) (frame_stuffing config)).2
        else resvDrain (side_info config))
  /\ (grid_2x2 (side_info config) = true ->
      channels (wave config) <= 2 ->
      planB_taken config = true ->
      resvDrain (side_info (ResvFrameEnd config))
        = frame_stuffing config
          - (total_bits (side_info (ResvFrameEnd config))
             - total_bits (side_info config))).
Proof.
  intros Hnonneg.
  split; [apply planB_taken_spec|]. split.
  - rewrite ResvFrameEnd_side_info.
    destruct (planB_taken config); [done|].
    by destruct (frame_stuffing config =? 0).
  - intros Hgrid Hch HplanB.
    pose proof (ResvFrameEnd_balance config Hgrid Hch) as Hbal.
    rewrite HplanB in Hbal. lia.
Qed.

Lemma ResvFrameEnd_resvDrain_witness :
  resvDrain (side_info (ResvFrameEnd
               (sample 2 1001 20002 4088 7 (grid_of 4000 4090 100 0))))
    = 15915 - (16380 - 8190).
Proof.
  destruct (ResvFrameEnd_resvDrain
              (sample 2 1001 20002 4088 7 (grid_of 4000 4090 100 0)))
    as (_ & _ & Hleft).
  - vm_compute. discriminate.
  - rewrite Hleft; [reflexivity | reflexivity | simpl; lia | reflexivity].
Defined.

(** C4, the claim as written fails.  With no stuffing at all, and again with
    15 stuffing bits that plan A puts into granule 0, channel 0, a
    [resvDrain] of 7 on entry is still 7 on exit, not 0. *)
Lemma ResvFrameEnd_keeps_stale_resvDrain :
  (frame_stuffing (sample 2 1000 64 4088 7 (grid_of 0 0 0 0)) = 0
   /\ resvDrain (side_info (ResvFrameEnd (sample 2 1000 64 4088 7 (grid_of 0 0 0 0)))) = 7)
  /\ (frame_stuffing (sample 2 1000 4103 4088 7 (grid_of 0 0 0 0)) = 15
      /\ ResvFrameEnd (sample 2 1000 4103 4088 7 (grid_of 0 0 0 0))
           = sample 2 1000 4088 4088 7 (grid_of 15 0 0 0))
  /\ resvDrain (side_info (ResvFrameEnd (sample 2 1000 64 4088 7 (grid_of 0 0 0 0)))) <> 0.
Proof. repeat split. vm_compute. discriminate. Qed.

(** C3 (as amended).  On the two by two array with at most two channels, for
    a stuffing that is not negative (as it is whenever the reservoir and its
    limit are not negative), when plan B runs or [resvDrain] is 0 on entry,
    the overflow removed from the reservoir plus the alignment remainder
    removed from it equals the bits added to the [part2_3_length] fields
    plus [resvDrain] on exit. *)
Theorem ResvFrameEnd_stuffing_conserved (config : shine_global_config) :
  grid_2x2 (side_info config) = true ->
  channels (wave config) <= 2 ->
  0 <= overflow config + alignment_remainder config ->
  planB_taken config = true \/ resvDrain (side_info config) = 0 ->
  overflow config + alignment_remainder config
    = (total_bits (side_info (ResvFrameEnd config)) - total_bits (side_info config))
      + resvDrain (side_info (ResvFrameEnd config)).
Proof.
  intros Hgrid Hch Hnonneg Hdrain.
  pose proof (ResvFrameEnd_balance config Hgrid Hch) as Hbal.
  unfold frame_stuffing in Hbal.
  destruct Hdrain as [HB | H0].
  - rewrite HB in Hbal. lia.
  - rewrite H0 in Hbal. destruct (planB_taken config); lia.
Qed.

Lemma ResvFrameEnd_stuffing_conserved_witness :
  overflow (sample 2 1001 20002 4088 7 (grid_of 4000 4090 100 0))
  + alignment_remainder (sample 2 1001 20002 4088 7 (grid_of 4000 4090 100 0))
    = (total_bits (side_info (ResvFrameEnd
                     (sample 2 1001 20002 4088 7 (grid_of 4000 4090 100 0))))
       - total_bits (side_info (sample 2 1001 20002 4088 7 (grid_of 4000 4090 100 0))))
      + resvDrain (side_info (ResvFrameEnd
                     (sample 2 1001 20002 4088 7 (grid_of 4000 4090 100 0)))).
Proof.
  apply (ResvFrameEnd_stuffing_conserved
           (sample 2 1001 20002 4088 7 (grid_of 4000 4090 100 0))).
  - reflexivity.
  - simpl. lia.
  - vm_compute. discriminate.
  - left. reflexivity.
Defined.

(** C3, the claim as written fails: a call that finds the reservoir within
    its limit and aligned removes nothing and adds nothing, yet [resvDrain],
    7 on entry, is 7 on exit. *)
Lemma ResvFrameEnd_stale_drain_breaks_balance :
  overflow (sample 2 1000 64 4088 7 (grid_of 0 0 0 0))
  + alignment_remainder (sample 2 1000 64 4088 7 (grid_of 0 0 0 0))
    <> (total_bits (side_info (ResvFrameEnd (sample 2 1000 64 4088 7 (grid_of 0 0 0 0))))
        - total_bits (side_info (sample 2 1000 64 4088 7 (grid_of 0 0 0 0))))
       + resvDrain (side_info (ResvFrameEnd (sample 2 1000 64 4088 7 (grid_of 0 0 0 0)))).
Proof. vm_compute. discriminate. Qed.

(** ** The reservoir never runs a deficit under the calling protocol *)

Lemma ResvFrameEnd_nonneg config :
  0 <= ResvSize config -> 0 <= ResvMax config ->
  0 <= ResvSize (ResvFrameEnd config).
Proof.
  intros Hsize Hmax. rewrite ResvFrameEnd_ResvSize_quot.
  assert (0 <= parity_corrected config).
  { unfold parity_corrected. destruct (_ && _); lia. }
  assert (0 <= Z.min (parity_corrected config) (ResvMax config) ÷ 8)
    by (apply Z.quot_pos; lia).
  lia.
Qed.

Lemma ResvAdjust_nonneg pe used l3_side config :
  0 <= ResvSize config -> 0 <= ResvMax config ->
  used <= ResvMaxBits pe config ->
  0 <= ResvSize (ResvAdjust (mk_gr_info used) (set_side_info l3_side config)).
Proof.
  intros Hsize Hmax Hused.
  pose proof (ResvMaxBits_within_reservoir pe config Hsize Hmax).
  unfold ResvAdjust. simpl. lia.
Qed.

Lemma step_protocol_inv st st' : step st st' -> protocol_inv st -> protocol_inv st'.
Proof.
  unfold protocol_inv.
  intros Hstep [Hsize Hmax]. destruct Hstep as [fl mean l3 config | pe g c used config Hused | config];
    cbn [fst snd] in *.
  - split.
    + rewrite ResvFrameBegin_unfold. simpl. done.
    + intros _. apply ResvFrameBegin_ResvMax_range.
  - split.
    + apply (ResvAdjust_nonneg pe); [done | by apply Hmax | lia].
    + intros _. by apply Hmax.
  - split; [|done]. apply ResvFrameEnd_nonneg; [done | by apply Hmax].
Qed.

Lemma reachable_protocol_inv st st' :
  rtc step st st' -> protocol_inv st -> protocol_inv st'.
Proof. induction 1; eauto using step_protocol_inv. Qed.

(** C9.  Start between frames with an empty reservoir and follow the
    protocol: [ResvFrameBegin], granules that use between 0 and what
    [ResvMaxBits] granted them, each reported by [ResvAdjust], and
    [ResvFrameEnd].  Then after every [ResvFrameEnd] the reservoir size is
    not negative. *)
Theorem ResvFrameEnd_no_deficit
    (config0 config : shine_global_config) :
  ResvSize config0 = 0 ->
  rtc step (BetweenFrames, config0) (FrameActive, config) ->
  0 <= ResvSize (ResvFrameEnd config).
Proof.
  intros Hzero Hreach.
  assert (Hinv : protocol_inv (FrameActive, config)).
  { apply (reachable_protocol_inv _ _ Hreach). split; simpl; [lia | done]. }
  destruct Hinv as [Hsize Hmax]. apply ResvFrameEnd_nonneg; [done | by apply Hmax].
Qed.

Lemma ResvFrameEnd_no_deficit_witness :
  0 <= ResvSize
         (ResvFrameEnd
            (ResvAdjust (mk_gr_info 300)
               (set_side_info
                  (set_length (mk_side_info 0 0 (grid_of 0 0 0 0)) 0 0 300)
                  (ResvFrameBegin 417
                     (set_side_info (mk_side_info 0 0 (grid_of 0 0 0 0))
                        (set_mean_bits 1001
                           (sample 2 0 0 0 0 (grid_of 0 0 0 0)))))))).
Proof.
  apply (ResvFrameEnd_no_deficit (sample 2 0 0 0 0 (grid_of 0 0 0 0))).
  - reflexivity.
  - eapply rtc_l; [apply step_FrameBegin|].
    eapply rtc_l; [|apply rtc_refl].
    apply (step_granule (int_to_double 400) 0 0 300).
    vm_compute. split; discriminate.
Defined.

(** * Further properties of the four routines *)

(** ** Arithmetic of the clamps *)

Lemma min_by_ltb_swap (a b : Z) : (if b <? a then b else a) = Z.min a b.
Proof. destruct (Z.ltb_spec b a); lia. Qed.

(** ** ResvFrameBegin and the limit it sets *)

(** X1.  The limit set by [ResvFrameBegin] depends on the frame length
    alone: a call overwrites what an earlier call has set, and a longer
    frame never gets a larger limit. *)
Theorem ResvFrameBegin_limit_by_length
    (frameLength1 frameLength2 : Z) (config : shine_global_config) :
  ResvFrameBegin frameLength2 (ResvFrameBegin frameLength1 config)
    = ResvFrameBegin frameLength2 config
  /\ (frameLength1 <= frameLength2 ->
      ResvMax (ResvFrameBegin frameLength2 config)
        <= ResvMax (ResvFrameBegin frameLength1 config)).
Proof.
  rewrite !ResvFrameBegin_unfold. split; [reflexivity|].
  intros Hle. simpl.
  destruct (Z.ltb_spec 7680 frameLength1), (Z.ltb_spec 7680 frameLength2); lia.
Qed.

(** X2.  The reservoir is switched off ([ResvMax = 0]) exactly for the
    frames of 7680 bits or more (the frame of exactly 7680 bits included,
    through the subtraction of line 40), and it gets the full 4088 bits
    exactly for the frames of at most 3592 bits. *)
Theorem ResvFrameBegin_thresholds (frameLength : Z) (config : shine_global_config) :
  (ResvMax (ResvFrameBegin frameLength config) = 0 <-> 7680 <= frameLength)
  /\ (ResvMax (ResvFrameBegin frameLength config) = 4088 <-> frameLength <= 3592).
Proof.
  rewrite ResvFrameBegin_unfold. simpl.
  destruct (Z.ltb_spec 7680 frameLength); lia.
Qed.

(** X3.  After [ResvFrameBegin] on a frame of 7680 bits or more,
    [ResvMaxBits] grants the nominal allotment capped at 4095, whatever the
    perceptual entropy and the reservoir size are: nothing is borrowed. *)
Theorem ResvMaxBits_after_long_frame
    (frameLength : Z) (pe : spec_float) (config : shine_global_config) :
  7680 <= frameLength ->
  ResvMaxBits pe (ResvFrameBegin frameLength config)
    = Z.min (Z.quot (mean_bits config) (channels (wave config))) 4095.
Proof.
  intros Hlong. rewrite ResvFrameBegin_unfold. unfold ResvMaxBits. simpl.
  replace (if 7680 <? frameLength then 0 else Z.min (7680 - frameLength) 4088)
    with 0 by (destruct (Z.ltb_spec 7680 frameLength); lia).
  simpl. apply min_by_ltb_swap.
Qed.

Lemma ResvMaxBits_after_long_frame_witness :
  ResvMaxBits (int_to_double 900)
    (ResvFrameBegin 7680 (sample 2 1000 640 4088 0 (grid_of 0 0 0 0)))
    = Z.min (Z.quot 1000 2) 4095.
Proof.
  apply (ResvMaxBits_after_long_frame 7680 (int_to_double 900)
           (sample 2 1000 640 4088 0 (grid_of 0 0 0 0))).
  lia.
Defined.

(** ** ResvMaxBits: what the reservoir lends *)

(** The demand [more_bits] is the only place where the perceptual entropy
    enters; the proofs below hold for every value it takes. *)
Ltac ResvMaxBits_cases :=
  unfold ResvMaxBits;
  match goal with
  | |- context [ResvMax ?c =? 0] =>
      let base := fresh "base" in
      set (base := Z.quot (mean_bits c) (channels (wave c))) in *;
      destruct (Z.eqb_spec (ResvMax c) 0);
      [ split_ltb
      | cbv zeta;
        match goal with
        | |- context [double_to_int ?x] =>
            let more_bits := fresh "more_bits" in
            generalize (double_to_int x); intros more_bits
        end;
        split_ltb ]
  end.

Lemma shiftl_3_quot_10 (x : Z) : Z.shiftl x 3 ÷ 10 = x * 8 ÷ 10.
Proof. by rewrite Z.shiftl_mul_pow2 by lia. Qed.

(** X4.  With a reservoir that is not in deficit the bonus is never
    negative: the grant is at least the nominal allotment capped at 4095. *)
Theorem ResvMaxBits_at_least_nominal (pe : spec_float) (config : shine_global_config) :
  0 <= ResvSize config ->
  Z.min (Z.quot (mean_bits config) (channels (wave config))) 4095
    <= ResvMaxBits pe config.
Proof.
  intros Hsize.
  assert (0 <= ResvSize config * 6 ÷ 10) by (apply Z.quot_pos; lia).
  ResvMaxBits_cases; lia.
Qed.

Lemma ResvMaxBits_at_least_nominal_witness :
  Z.min (Z.quot 1000 2) 4095
    <= ResvMaxBits (int_to_double 1000) (sample 2 1000 2000 4088 0 (grid_of 0 0 0 0)).
Proof.
  apply (ResvMaxBits_at_least_nominal (int_to_double 1000)
           (sample 2 1000 2000 4088 0 (grid_of 0 0 0 0))).
  simpl. lia.
Defined.

(** X5.  With a reservoir and a limit that are not negative, the grant never
    exceeds the nominal allotment by more than the reservoir holds; and as
    long as the reservoir is at most 80 percent of the limit
    ([ResvMax * 8 / 10]), the bonus is at most 60 percent of the reservoir
    ([ResvSize * 6 / 10]). *)
Theorem ResvMaxBits_lending_limits (pe : spec_float) (config : shine_global_config) :
  0 <= ResvSize config ->
  0 <= ResvMax config ->
  ResvMaxBits pe config
    <= Z.quot (mean_bits config) (channels (wave config)) + ResvSize config
  /\ (ResvSize config <= ResvMax config * 8 ÷ 10 ->
      ResvMaxBits pe config
        <= Z.min (Z.quot (mean_bits config) (channels (wave config))) 4095
           + ResvSize config * 6 ÷ 10).
Proof.
  intros Hsize Hmax.
  assert (0 <= ResvSize config * 6 ÷ 10 <= ResvSize config).
  { split; [apply Z.quot_pos; lia | apply Z.quot_le_upper_bound; lia]. }
  assert (0 <= ResvMax config * 8 ÷ 10) by (apply Z.quot_pos; lia).
  split; [|intros Hlow]; ResvMaxBits_cases;
    rewrite ?shiftl_3_quot_10 in *; lia.
Qed.

Lemma ResvMaxBits_lending_limits_witness :
  ResvMaxBits (int_to_double 1000) (sample 2 1000 2000 4088 0 (grid_of 0 0 0 0))
    <= Z.quot 1000 2 + 2000
  /\ (2000 <= 4088 * 8 ÷ 10 ->
      ResvMaxBits (int_to_double 1000) (sample 2 1000 2000 4088 0 (grid_of 0 0 0 0))
        <= Z.min (Z.quot 1000 2) 4095 + 2000 * 6 ÷ 10).
Proof.
  apply (ResvMaxBits_lending_limits (int_to_double 1000)
           (sample 2 1000 2000 4088 0 (grid_of 0 0 0 0)));
    simpl; lia.
Defined.

(** X6.  With the reservoir in use ([ResvMax] not 0), what the reservoir
    holds above 80 percent of its limit is always part of the grant, up to
    the cap of 4095: the bits are spent now rather than banked. *)
Theorem ResvMaxBits_forced_spending (pe : spec_float) (config : shine_global_config) :
  ResvMax config <> 0 ->
  Z.min (Z.min (Z.quot (mean_bits config) (channels (wave config))) 4095
         + (ResvSize config - ResvMax config * 8 ÷ 10))
        4095
    <= ResvMaxBits pe config.
Proof.
  intros Hmax. ResvMaxBits_cases; rewrite ?shiftl_3_quot_10 in *; lia.
Qed.

Lemma ResvMaxBits_forced_spending_witness :
  Z.min (Z.min (Z.quot 1000 2) 4095 + (4000 - 4088 * 8 ÷ 10)) 4095
    <= ResvMaxBits (int_to_double 0) (sample 2 1000 4000 4088 0 (grid_of 0 0 0 0)).
Proof.
  apply (ResvMaxBits_forced_spending (int_to_double 0)
           (sample 2 1000 4000 4088 0 (grid_of 0 0 0 0))).
  simpl. lia.
Defined.

(** X7.  With an empty reservoir and a limit that is not negative, the grant
    is the nominal allotment capped at 4095, however large the perceptual
    entropy is. *)
Theorem ResvMaxBits_empty_reservoir (pe : spec_float) (config : shine_global_config) :
  ResvSize config = 0 ->
  0 <= ResvMax config ->
  ResvMaxBits pe config
    = Z.min (Z.quot (mean_bits config) (channels (wave config))) 4095.
Proof.
  intros Hsize Hmax.
  assert (0 <= ResvMax config * 8 ÷ 10) by (apply Z.quot_pos; lia).
  ResvMaxBits_cases; rewrite ?shiftl_3_quot_10, ?Hsize in *;
    change (0 * 6 ÷ 10) with 0 in *; lia.
Qed.

Lemma ResvMaxBits_empty_reservoir_witness :
  ResvMaxBits (int_to_double 5000) (sample 2 1000 0 4088 0 (grid_of 0 0 0 0))
    = Z.min (Z.quot 1000 2) 4095.
Proof.
  apply (ResvMaxBits_empty_reservoir (int_to_double 5000)
           (sample 2 1000 0 4088 0 (grid_of 0 0 0 0)));
    [reflexivity | simpl; lia].
Defined.

(** ** ResvAdjust over the granules of a frame *)

Lemma row_bits_perm (gis gis' : list gr_info) :
  gis ≡ₚ gis' -> row_bits gis = row_bits gis'.
Proof. induction 1; simpl in *; lia. Qed.

Lemma adjust_all_formula gis config :
  adjust_all gis config
    = set_ResvSize
        (ResvSize config
         + Z.of_nat (length gis) * Z.quot (mean_bits config) (channels (wave config))
         - row_bits gis)
        config.
Proof.
  revert config. induction gis as [|gi gis IH]; intros config.
  - simpl. rewrite <- (set_ResvSize_same config) at 1. f_equal. lia.
  - change (adjust_all (gi :: gis) config)
      with (adjust_all gis (ResvAdjust gi config)).
    rewrite IH. unfold ResvAdjust. apply config_eq; try done.
    cbn [ResvSize set_ResvSize mean_bits wave length].
    change (row_bits (gi :: gis)) with (part2_3_length gi + row_bits gis).
    rewrite Nat2Z.inj_succ. lia.
Qed.

(** X8.  Reporting the granules of a frame one after the other adds to the
    reservoir, for each granule, the nominal allotment less the bits used:
    the result is the size on entry plus [n * (mean_bits / channels)] minus
    the sum of the [part2_3_length]s, no other field changes, and the order
    of the reports does not matter. *)
Theorem adjust_all_accounting (gis : list gr_info) (config : shine_global_config) :
  adjust_all gis config
    = set_ResvSize
        (ResvSize config
         + Z.of_nat (length gis) * Z.quot (mean_bits config) (channels (wave config))
         - row_bits gis)
        config
  /\ (forall gis' : list gr_info,
        gis ≡ₚ gis' -> adjust_all gis' config = adjust_all gis config).
Proof.
  split; [apply adjust_all_formula|].
  intros gis' Hperm. rewrite !adjust_all_formula.
  by rewrite (row_bits_perm _ _ Hperm), (Permutation_length Hperm).
Qed.

(** ** Reading and writing the cells *)

Lemma get_set_other s g c v g' c' :
  (g, c) <> (g', c') ->
  get_length (set_length s g c v) g' c' = get_length s g' c'.
Proof.
  intros Hne. unfold get_length, set_length. simpl.
  destruct (decide (g = g')) as [<-|Hg].
  - rewrite list_lookup_alter_eq. destruct (gr s !! g) as [row|]; simpl; [|done].
    rewrite list_lookup_insert_ne; [done | congruence].
  - by rewrite list_lookup_alter_ne.
Qed.

Lemma get_set_same s g c v :
  get_length (set_length s g c v) g c = v
  \/ get_length (set_length s g c v) g c = get_length s g c.
Proof.
  unfold get_length, set_length. simpl.
  rewrite list_lookup_alter_eq. destruct (gr s !! g) as [row|]; simpl; [|by right].
  destruct (decide (c < length row)%nat) as [Hlt|Hge].
  - left. by rewrite list_lookup_insert_eq.
  - right. rewrite list_insert_ge; [done | lia].
Qed.

Lemma get_set_in_grid s g c v :
  grid_2x2 s = true -> (g < 2)%nat -> (c < 2)%nat ->
  get_length (set_length s g c v) g c = v.
Proof.
  intros Hgrid Hg Hc.
  destruct (grid_2x2_inv s Hgrid) as (a & b & c' & d & E).
  unfold get_length, set_length. simpl. rewrite E.
  destruct g as [|[|g]], c as [|[|c]]; try lia; reflexivity.
Qed.

Lemma set_length_capped s g c v :
  fields_capped s -> v <= 4095 -> fields_capped (set_length s g c v).
Proof.
  intros Hcap Hv g' c'.
  destruct (decide ((g, c) = (g', c'))) as [[= <- <-]|Hne].
  - destruct (get_set_same s g c v) as [-> | ->]; [done | apply Hcap].
  - rewrite get_set_other by done. apply Hcap.
Qed.

Lemma set_length_shape s g c v :
  map length (gr (set_length s g c v)) = map length (gr s).
Proof.
  unfold set_length. simpl. generalize (gr s). intros rows. revert g.
  induction rows as [|row rows IH]; intros [|g]; simpl; try done.
  - by rewrite length_insert.
  - f_equal. apply IH.
Qed.

Lemma elem_of_cell_order g c nch :
  (g, c) ∈ cell_order nch <-> (g < 2)%nat /\ (c < nch)%nat.
Proof.
  rewrite list_elem_of_In. unfold cell_order. simpl.
  rewrite app_nil_r, in_app_iff, !in_map_iff. split.
  - intros [(x & [= <- <-] & Hin) | (x & [= <- <-] & Hin)];
      apply in_seq in Hin; lia.
  - intros [Hg Hc].
    destruct g as [|[|g]]; [left | right | lia]; exists c;
      (split; [done | apply in_seq; lia]).
Qed.

Lemma cell_order_NoDup nch : NoDup (cell_order nch).
Proof.
  unfold cell_order. simpl. rewrite app_nil_r.
  apply NoDup_app. repeat split.
  - apply NoDup_fmap_2; [intros x y [=]; done | apply NoDup_seq].
  - intros [g c] H0 H1.
    apply list_elem_of_In, in_map_iff in H0 as (x & [= <- <-] & _).
    apply list_elem_of_In, in_map_iff in H1 as (y & [=] & _).
  - apply NoDup_fmap_2; [intros x y [=]; done | apply NoDup_seq].
Qed.

(** ** The walk of plan B over the cells *)

Lemma planB_spec_capped cells s pool :
  fields_capped s -> fields_capped (planB_spec cells s pool).1.
Proof.
  revert s pool. induction cells as [|[g c] rest IH]; intros s pool Hcap; simpl.
  - done.
  - destruct (pool =? 0); [done|].
    apply IH, set_length_capped; [done | lia].
Qed.

Lemma planB_spec_grows cells s pool :
  fields_capped s -> 0 <= pool ->
  (forall g c, get_length s g c <= get_length (planB_spec cells s pool).1 g c)
  /\ 0 <= (planB_spec cells s pool).2.
Proof.
  revert s pool. induction cells as [|[g c] rest IH]; intros s pool Hcap Hpool; simpl.
  - split; [intros; lia | done].
  - destruct (pool =? 0); [split; [intros; simpl; lia | done]|].
    set (absorbed := Z.min (4095 - get_length s g c) pool).
    pose proof (Hcap g c) as Hgc.
    destruct (IH (set_length s g c (get_length s g c + absorbed)) (pool - absorbed))
      as [IHgrow IHpool].
    { apply set_length_capped; [done | lia]. }
    { lia. }
    split; [|done]. intros g' c'. etrans; [|apply IHgrow].
    destruct (decide ((g, c) = (g', c'))) as [[= <- <-]|Hne].
    + destruct (get_set_same s g c (get_length s g c + absorbed)) as [-> | ->]; lia.
    + by rewrite get_set_other.
Qed.

Lemma planB_spec_untouched cells s pool g c :
  (g, c) ∉ cells ->
  get_length (planB_spec cells s pool).1 g c = get_length s g c.
Proof.
  revert s pool. induction cells as [|[g' c'] rest IH]; intros s pool Hnotin; simpl.
  - done.
  - apply not_elem_of_cons in Hnotin as [Hne Hrest].
    destruct (pool =? 0); [done|].
    rewrite IH by done. by rewrite get_set_other.
Qed.

Lemma planB_spec_frame cells s pool :
  main_data_begin (planB_spec cells s pool).1 = main_data_begin s
  /\ map length (gr (planB_spec cells s pool).1) = map length (gr s).
Proof.
  revert s pool. induction cells as [|[g c] rest IH]; intros s pool; simpl.
  - done.
  - destruct (pool =? 0); [done|].
    match goal with |- context [planB_spec rest ?s' ?p'] =>
      destruct (IH s' p') as [-> ->] end.
    by rewrite set_length_shape.
Qed.

Lemma headroom_set_other cells s g c v :
  (g, c) ∉ cells -> headroom cells (set_length s g c v) = headroom cells s.
Proof.
  induction cells as [|[g' c'] rest IH]; intros Hnotin; simpl.
  - done.
  - apply not_elem_of_cons in Hnotin as [Hne Hrest].
    rewrite IH by done. by rewrite get_set_other.
Qed.

Lemma headroom_nonneg cells s : fields_capped s -> 0 <= headroom cells s.
Proof.
  intros Hcap. induction cells as [|[g c] rest IH]; simpl; [done|].
  pose proof (Hcap g c). lia.
Qed.

(** What plan B leaves in the pool: the part that exceeds the room of the
    cells it visits. *)
Lemma planB_spec_leftover cells s pool :
  NoDup cells -> fields_capped s -> 0 <= pool ->
  (planB_spec cells s pool).2 = Z.max 0 (pool - headroom cells s).
Proof.
  intros Hnodup. revert s pool.
  induction Hnodup as [|[g c] rest Hnotin _ IH]; intros s pool Hcap Hpool; simpl.
  - lia.
  - pose proof (headroom_nonneg rest s Hcap) as Hrest.
    pose proof (Hcap g c) as Hgc.
    destruct (Z.eqb_spec pool 0) as [->|Hne]; simpl; [lia|].
    set (absorbed := Z.min (4095 - get_length s g c) pool).
    rewrite IH; [| apply set_length_capped; [done | lia] | lia].
    rewrite headroom_set_other by done. lia.
Qed.

(** A pool that is not used up has filled every cell on its way. *)
Lemma planB_spec_full cells s pool :
  grid_2x2 s = true -> NoDup cells -> Forall in_grid cells ->
  (planB_spec cells s pool).2 <> 0 ->
  forall g c, (g, c) ∈ cells -> get_length (planB_spec cells s pool).1 g c = 4095.
Proof.
  intros Hgrid Hnodup. revert s pool Hgrid.
  induction Hnodup as [|[g c] rest Hnotin _ IH];
    intros s pool Hgrid Hcells Hleft g' c' Hin; simpl in *.
  - by apply not_elem_of_nil in Hin.
  - apply Forall_cons in Hcells as [[Hg Hc] Hcells]. simpl in Hg, Hc.
    destruct (Z.eqb_spec pool 0) as [->|Hne]; [done|].
    set (absorbed := Z.min (4095 - get_length s g c) pool) in *.
    assert (Habs : absorbed = 4095 - get_length s g c).
    { destruct (Z.min_spec (4095 - get_length s g c) pool) as [[_ E]|[_ E]];
        [done|]. exfalso. apply Hleft.
      replace (pool - absorbed) with 0 by (unfold absorbed; lia).
      by rewrite planB_spec_empty_pool. }
    destruct (set_length_total s g c (get_length s g c + absorbed) Hgrid Hg Hc)
      as [_ Hgrid'].
    apply elem_of_cons in Hin as [[= -> ->]|Hin].
    + rewrite planB_spec_untouched by done.
      rewrite get_set_in_grid by done. lia.
    + by apply IH.
Qed.

Lemma frame_stuffing_nonneg config :
  0 <= ResvSize config -> 0 <= ResvMax config -> 0 <= frame_stuffing config.
Proof.
  intros Hsize Hmax. unfold frame_stuffing, alignment_remainder, overflow.
  assert (0 <= parity_corrected config).
  { unfold parity_corrected. destruct (_ && _); lia. }
  pose proof (Z.rem_nonneg
    (parity_corrected config - Z.max 0 (parity_corrected config - ResvMax config)) 8).
  lia.
Qed.

(** ** ResvFrameEnd: what it changes and what it leaves alone *)

Lemma get_length_set_resvDrain v s g c :
  get_length (set_resvDrain v s) g c = get_length s g c.
Proof. reflexivity. Qed.

Lemma ResvFrameEnd_wave_mean config :
  wave (ResvFrameEnd config) = wave config
  /\ mean_bits (ResvFrameEnd config) = mean_bits config.
Proof.
  unfold ResvFrameEnd. rewrite ResvFrameEnd_reservoir_spec.
  unfold ResvFrameEnd_stuffing.
  destruct (negb (frame_stuffing config =? 0)); [|done].
  destruct (_ <? 4095); [done|].
  by destruct (planB_granules _ _ _ _ _).
Qed.

(** When plan B is not taken and there is stuffing, the test of plan A has
    succeeded. *)
Lemma planA_test config :
  planB_taken config = false -> frame_stuffing config <> 0 ->
  get_length (side_info config) 0 0 + frame_stuffing config < 4095.
Proof.
  rewrite planB_taken_spec. intros HB Hne.
  destruct (Z.eqb_spec (frame_stuffing config) 0); [done|].
  destruct (Z.ltb_spec (get_length (side_info config) 0 0 + frame_stuffing config) 4095);
    [done | discriminate].
Qed.

Lemma planB_test config :
  planB_taken config = true ->
  frame_stuffing config <> 0
  /\ 4095 <= get_length (side_info config) 0 0 + frame_stuffing config.
Proof.
  rewrite planB_taken_spec. intros HB.
  destruct (Z.eqb_spec (frame_stuffing config) 0); [discriminate|].
  destruct (Z.ltb_spec (get_length (side_info config) 0 0 + frame_stuffing config) 4095);
    [discriminate | done].
Qed.

(** X9.  Without the parity correction (one channel, or an even
    [mean_bits]), [ResvFrameEnd] returns a reservoir that is within its limit
    and byte aligned exactly as it received it, side information included;
    so, with a limit that is not negative, a second call right after the
    first changes nothing. *)
Theorem ResvFrameEnd_legal_identity (config : shine_global_config) :
  (channels (wave config) =? 2) && Z.odd (mean_bits config) = false ->
  (ResvSize config <= ResvMax config -> Z.rem (ResvSize config) 8 = 0 ->
   ResvFrameEnd config = config)
  /\ (0 <= ResvMax config ->
      ResvFrameEnd (ResvFrameEnd config) = ResvFrameEnd config).
Proof.
  assert (Hid : forall c,
    (channels (wave c) =? 2) && Z.odd (mean_bits c) = false ->
    ResvSize c <= ResvMax c -> Z.rem (ResvSize c) 8 = 0 -> ResvFrameEnd c = c).
  { intros c Hpar Hle Hrem.
    assert (Hp : parity_corrected c = ResvSize c)
      by (unfold parity_corrected; by rewrite Hpar).
    assert (Ho : overflow c = 0) by (unfold overflow; lia).
    assert (Hr : alignment_remainder c = 0)
      by (unfold alignment_remainder; rewrite Ho, Hp, Z.sub_0_r; done).
    unfold ResvFrameEnd. rewrite ResvFrameEnd_reservoir_spec.
    unfold frame_stuffing. rewrite Hp, Ho, Hr. simpl.
    rewrite !Z.sub_0_r. apply set_ResvSize_same. }
  intros Hpar. split; [by apply Hid|].
  intros Hmax.
  destruct (ResvFrameEnd_wave_mean config) as [Hwave Hmean].
  destruct (ResvFrameEnd_ResvSize config) as [_ HMax].
  pose proof (ResvFrameEnd_ResvSize_quot config) as Hsize.
  set (m := Z.min (parity_corrected config) (ResvMax config)) in *.
  apply Hid.
  - by rewrite Hwave, Hmean.
  - rewrite HMax, Hsize. pose proof (Z.quot_rem' m 8).
    destruct (Z.le_gt_cases 0 m).
    + pose proof (Z.rem_nonneg m 8). lia.
    + assert (m ÷ 8 <= 0) by (apply Z.quot_le_upper_bound; lia). lia.
  - rewrite Hsize, Z.mul_comm. apply Z.rem_mul. lia.
Qed.

Lemma ResvFrameEnd_legal_identity_witness :
  ResvFrameEnd (sample 2 1000 4064 4088 3 (grid_of 700 650 810 0))
    = sample 2 1000 4064 4088 3 (grid_of 700 650 810 0).
Proof.
  destruct (ResvFrameEnd_legal_identity
              (sample 2 1000 4064 4088 3 (grid_of 700 650 810 0))) as [Hid _].
  - reflexivity.
  - apply Hid; [simpl; lia | reflexivity].
Defined.

(** X10.  With a limit that is not negative, [ResvFrameEnd] computes no
    stuffing exactly when the reservoir, after the parity correction, is
    within the limit and a multiple of 8. *)
Theorem ResvFrameEnd_no_stuffing_iff (config : shine_global_config) :
  0 <= ResvMax config ->
  (ResvFrameEnd_reservoir config).2 = 0
  <-> parity_corrected config <= ResvMax config
      /\ Z.rem (parity_corrected config) 8 = 0.
Proof.
  intros Hmax. rewrite ResvFrameEnd_reservoir_spec. simpl.
  unfold frame_stuffing, alignment_remainder, overflow.
  destruct (Z.le_gt_cases (parity_corrected config) (ResvMax config)) as [Hle|Hgt].
  - rewrite Z.max_l, Z.sub_0_r by lia. simpl. split; [done | by intros [_ ?]].
  - rewrite Z.max_r by lia.
    replace (parity_corrected config - (parity_corrected config - ResvMax config))
      with (ResvMax config) by lia.
    pose proof (Z.rem_nonneg (ResvMax config) 8). lia.
Qed.

Lemma ResvFrameEnd_no_stuffing_iff_witness :
  (ResvFrameEnd_reservoir (sample 2 1000 4064 4088 3 (grid_of 700 650 810 0))).2 = 0
  <-> parity_corrected (sample 2 1000 4064 4088 3 (grid_of 700 650 810 0)) <= 4088
      /\ Z.rem (parity_corrected (sample 2 1000 4064 4088 3 (grid_of 700 650 810 0))) 8 = 0.
Proof.
  apply (ResvFrameEnd_no_stuffing_iff
           (sample 2 1000 4064 4088 3 (grid_of 700 650 810 0))).
  simpl. lia.
Defined.

(** X11.  [ResvFrameEnd] never touches the channel count, [mean_bits],
    [ResvMax] or [main_data_begin], and it keeps the shape of the granule
    array (the number of granules and of channels per granule). *)
Theorem ResvFrameEnd_frame (config : shine_global_config) :
  wave (ResvFrameEnd config) = wave config
  /\ mean_bits (ResvFrameEnd config) = mean_bits config
  /\ ResvMax (ResvFrameEnd config) = ResvMax config
  /\ main_data_begin (side_info (ResvFrameEnd config))
       = main_data_begin (side_info config)
  /\ map length (gr (side_info (ResvFrameEnd config)))
       = map length (gr (side_info config)).
Proof.
  destruct (ResvFrameEnd_wave_mean config) as [-> ->].
  destruct (ResvFrameEnd_ResvSize config) as [_ ->].
  rewrite ResvFrameEnd_side_info.
  destruct (planB_taken config).
  - destruct (planB_spec_frame (cell_order (Z.to_nat (channels (wave config))))
                (side_info config) (frame_stuffing config)) as [Hmdb Hshape].
    by repeat split.
  - destruct (frame_stuffing config =? 0); [done|].
    repeat split; try done. apply set_length_shape.
Qed.

(** X12.  With a reservoir and a limit that are not negative,
    [ResvFrameEnd] never pushes a field above 4095: if every
    [part2_3_length] is at most 4095 on entry, so is every one on exit. *)
Theorem ResvFrameEnd_fields_capped (config : shine_global_config) :
  0 <= ResvSize config ->
  0 <= ResvMax config ->
  fields_capped (side_info config) ->
  fields_capped (side_info (ResvFrameEnd config)).
Proof.
  intros Hsize Hmax Hcap. rewrite ResvFrameEnd_side_info.
  destruct (planB_taken config) eqn:HB.
  - intros g c. cbv zeta. rewrite get_length_set_resvDrain.
    by apply planB_spec_capped.
  - destruct (Z.eqb_spec (frame_stuffing config) 0) as [|Hne]; [done|].
    apply set_length_capped; [done|].
    pose proof (planA_test config HB Hne). lia.
Qed.

Lemma ResvFrameEnd_fields_capped_witness :
  fields_capped
    (side_info (ResvFrameEnd (sample 2 1000 20000 0 7 (grid_of 4000 4090 100 0)))).
Proof.
  apply (ResvFrameEnd_fields_capped
           (sample 2 1000 20000 0 7 (grid_of 4000 4090 100 0))).
  - simpl. lia.
  - simpl. lia.
  - intros [|[|g]] [|[|c]]; vm_compute; discriminate.
Defined.

(** X13.  With a reservoir and a limit that are not negative and fields of
    at most 4095, [ResvFrameEnd] only ever increases a [part2_3_length]. *)
Theorem ResvFrameEnd_fields_grow (config : shine_global_config) :
  0 <= ResvSize config ->
  0 <= ResvMax config ->
  fields_capped (side_info config) ->
  forall g c : nat,
    get_length (side_info config) g c
      <= get_length (side_info (ResvFrameEnd config)) g c.
Proof.
  intros Hsize Hmax Hcap g c.
  pose proof (frame_stuffing_nonneg config Hsize Hmax) as Hstuff.
  rewrite ResvFrameEnd_side_info.
  destruct (planB_taken config).
  - cbv zeta. rewrite get_length_set_resvDrain.
    by apply planB_spec_grows.
  - destruct (frame_stuffing config =? 0); [lia|].
    destruct (decide ((0%nat, 0%nat) = (g, c))) as [[= <- <-]|Hne].
    + match goal with |- _ <= get_length (set_length ?s _ _ ?v) _ _ =>
        destruct (get_set_same s 0 0 v) as [-> | ->]; lia end.
    + rewrite get_set_other by done. lia.
Qed.

Lemma ResvFrameEnd_fields_grow_witness :
  get_length (side_info (sample 2 1000 20000 0 7 (grid_of 4000 4090 100 0))) 1 0
    <= get_length (side_info (ResvFrameEnd
                     (sample 2 1000 20000 0 7 (grid_of 4000 4090 100 0)))) 1 0.
Proof.
  apply (ResvFrameEnd_fields_grow
           (sample 2 1000 20000 0 7 (grid_of 4000 4090 100 0))).
  - simpl. lia.
  - simpl. lia.
  - intros [|[|g]] [|[|c]]; vm_compute; discriminate.
Defined.

(** X14.  [ResvFrameEnd] writes no cell beyond the configured channels: a
    cell other than granule 0, channel 0 whose channel index is at least
    [channels], or whose granule index is at least 2, keeps its
    [part2_3_length]; for one channel the fields of channel 1 are never
    used for stuffing. *)
Theorem ResvFrameEnd_other_cells_untouched
    (config : shine_global_config) (g c : nat) :
  (g, c) <> (0%nat, 0%nat) ->
  (2 <= g)%nat \/ (Z.to_nat (channels (wave config)) <= c)%nat ->
  get_length (side_info (ResvFrameEnd config)) g c
    = get_length (side_info config) g c.
Proof.
  intros Hne Hout. rewrite ResvFrameEnd_side_info.
  destruct (planB_taken config).
  - cbv zeta. rewrite get_length_set_resvDrain.
    apply planB_spec_untouched. rewrite elem_of_cell_order. lia.
  - destruct (frame_stuffing config =? 0); [done|].
    by rewrite get_set_other.
Qed.

Lemma ResvFrameEnd_other_cells_untouched_witness :
  get_length (side_info (ResvFrameEnd
                (sample 1 1000 20000 0 7 (grid_of 4000 4090 100 0)))) 0 1
    = 4090.
Proof.
  apply (ResvFrameEnd_other_cells_untouched
           (sample 1 1000 20000 0 7 (grid_of 4000 4090 100 0)) 0 1).
  - discriminate.
  - right. simpl. lia.
Defined.

(** ** ResvFrameEnd: how much is drained *)

(** X15.  When plan B runs on fields of at most 4095, [resvDrain] receives
    exactly the part of the stuffing that exceeds the room of the cells of
    the configured channels: [max 0 (stuffingBits - headroom)], which is 0
    as soon as the cells have room for all of it. *)
Theorem ResvFrameEnd_drain_closed_form (config : shine_global_config) :
  fields_capped (side_info config) ->
  planB_taken config = true ->
  resvDrain (side_info (ResvFrameEnd config))
    = Z.max 0
        ((ResvFrameEnd_reservoir config).2
         - headroom (cell_order (Z.to_nat (channels (wave config))))
             (side_info config)).
Proof.
  intros Hcap HB.
  destruct (planB_test config HB) as [_ Hge].
  pose proof (Hcap 0%nat 0%nat) as H00.
  rewrite ResvFrameEnd_side_info, HB, ResvFrameEnd_reservoir_spec. simpl.
  apply planB_spec_leftover; [apply cell_order_NoDup | done | lia].
Qed.

Lemma ResvFrameEnd_drain_closed_form_witness :
  resvDrain (side_info (ResvFrameEnd
               (sample 2 1000 4112 4088 0 (grid_of 4094 4094 4094 4094))))
    = Z.max 0 (24 - 4).
Proof.
  apply (ResvFrameEnd_drain_closed_form
           (sample 2 1000 4112 4088 0 (grid_of 4094 4094 4094 4094))).
  - intros [|[|g]] [|[|c]]; vm_compute; discriminate.
  - reflexivity.
Defined.

(** X16.  On the two by two array with at most two channels, when plan B
    leaves something in [resvDrain], every cell of the configured channels
    has been filled to 4095. *)
Theorem ResvFrameEnd_drain_means_full (config : shine_global_config) :
  grid_2x2 (side_info config) = true ->
  channels (wave config) <= 2 ->
  planB_taken config = true ->
  resvDrain (side_info (ResvFrameEnd config)) <> 0 ->
  forall g c : nat,
    (g < 2)%nat -> (c < Z.to_nat (channels (wave config)))%nat ->
    get_length (side_info (ResvFrameEnd config)) g c = 4095.
Proof.
  intros Hgrid Hch HB Hleft g c Hg Hc.
  rewrite ResvFrameEnd_side_info, HB in *. cbv zeta in *.
  rewrite get_length_set_resvDrain. simpl in Hleft.
  apply planB_spec_full; try done.
  - apply cell_order_NoDup.
  - apply cell_order_in_grid. lia.
  - by apply elem_of_cell_order.
Qed.

Lemma ResvFrameEnd_drain_means_full_witness :
  get_length (side_info (ResvFrameEnd
                (sample 2 1000 20000 0 7 (grid_of 4000 4090 100 0)))) 1 0
    = 4095.
Proof.
  apply (ResvFrameEnd_drain_means_full
           (sample 2 1000 20000 0 7 (grid_of 4000 4090 100 0))).
  - reflexivity.
  - simpl. lia.
  - reflexivity.
  - vm_compute. discriminate.
  - lia.
  - simpl. lia.
Defined.

(** X17.  [ResvFrameEnd] moves bits and creates none: on the two by two
    array with at most two channels, for a stuffing that is not negative,
    when [resvDrain] is 0 on entry or plan B runs, the reservoir size plus
    the sum of the fields plus [resvDrain] on exit is the reservoir size
    plus the sum of the fields on entry, plus the one bit of the parity
    correction when it applies. *)
Theorem ResvFrameEnd_budget_invariant (config : shine_global_config) :
  grid_2x2 (side_info config) = true ->
  channels (wave config) <= 2 ->
  0 <= (ResvFrameEnd_reservoir config).2 ->
  planB_taken config = true \/ resvDrain (side_info config) = 0 ->
  ResvSize (ResvFrameEnd config)
  + total_bits (side_info (ResvFrameEnd config))
  + resvDrain (side_info (ResvFrameEnd config))
    = ResvSize config + total_bits (side_info config)
      + (if (channels (wave config) =? 2) && Z.odd (mean_bits config) then 1 else 0).
Proof.
  intros Hgrid Hch Hnonneg Hdrain.
  pose proof (ResvFrameEnd_balance config Hgrid Hch) as Hbal.
  destruct (ResvFrameEnd_ResvSize config) as [-> _].
  unfold frame_stuffing in Hbal.
  assert (Hp : parity_corrected config
               = ResvSize config
                 + (if (channels (wave config) =? 2) && Z.odd (mean_bits config)
                    then 1 else 0)).
  { unfold parity_corrected. destruct (_ && _); lia. }
  destruct Hdrain as [HB | H0].
  - rewrite HB in Hbal. lia.
  - rewrite H0 in Hbal. destruct (planB_taken config); lia.
Qed.

Lemma ResvFrameEnd_budget_invariant_witness :
  ResvSize (ResvFrameEnd (sample 2 1001 20002 4088 7 (grid_of 4000 4090 100 0)))
  + total_bits (side_info (ResvFrameEnd
                  (sample 2 1001 20002 4088 7 (grid_of 4000 4090 100 0))))
  + resvDrain (side_info (ResvFrameEnd
                 (sample 2 1001 20002 4088 7 (grid_of 4000 4090 100 0))))
    = 20002 + total_bits (mk_side_info 0 7 (grid_of 4000 4090 100 0)) + 1.
Proof.
  apply (ResvFrameEnd_budget_invariant
           (sample 2 1001 20002 4088 7 (grid_of 4000 4090 100 0))).
  - reflexivity.
  - simpl. lia.
  - vm_compute. discriminate.
  - left. reflexivity.
Defined.

(** ** The reservoir fits [main_data_begin] under the calling protocol *)

Lemma step_protocol_bounds st st' :
  step st st' -> protocol_bounds st -> protocol_bounds st'.
Proof.
  unfold protocol_bounds.
  intros Hstep (Hsize & Hmax & Hidle).
  destruct Hstep as [fl mean l3 config | pe g c used config Hused | config];
    cbn [fst snd] in *.
  - repeat split; try done.
    + by rewrite ResvFrameBegin_unfold.
    + apply ResvFrameBegin_ResvMax_range.
    + apply ResvFrameBegin_ResvMax_range.
  - specialize (Hmax eq_refl). repeat split; try done; try (simpl; lia).
    apply (ResvAdjust_nonneg pe); [done | lia | lia].
  - specialize (Hmax eq_refl).
    pose proof (ResvFrameEnd_ResvSize_quot config) as Hq.
    set (m := Z.min (parity_corrected config) (ResvMax config)) in *.
    assert (0 <= parity_corrected config)
      by (unfold parity_corrected; destruct (_ && _); lia).
    pose proof (Z.quot_rem' m 8). pose proof (Z.rem_nonneg m 8).
    assert (0 <= m ÷ 8) by (apply Z.quot_pos; lia).
    repeat split; try done; try lia.
    rewrite Hq, Z.mul_comm. apply Z.rem_mul. lia.
Qed.

Lemma reachable_protocol_bounds st st' :
  rtc step st st' -> protocol_bounds st -> protocol_bounds st'.
Proof. induction 1; eauto using step_protocol_bounds. Qed.

(** X18.  Under the calling protocol, started with an empty reservoir, the
    reservoir between two frames is a whole number of bytes between 0 and
    4088 bits, so that its size in bytes, at most 511, fits the 9 bits of
    [main_data_begin]. *)
Theorem reservoir_fits_main_data_begin (config0 config : shine_global_config) :
  ResvSize config0 = 0 ->
  rtc step (BetweenFrames, config0) (BetweenFrames, config) ->
  0 <= ResvSize config <= 4088
  /\ Z.rem (ResvSize config) 8 = 0
  /\ 0 <= ResvSize config ÷ 8 < 2 ^ 9.
Proof.
  intros Hzero Hreach.
  assert (Hinv : protocol_bounds (BetweenFrames, config)).
  { apply (reachable_protocol_bounds _ _ Hreach).
    repeat split; simpl; try done; rewrite Hzero; (lia || done). }
  destruct Hinv as (Hsize & _ & Hidle). simpl in *.
  destruct (Hidle eq_refl) as [Hle Hrem].
  repeat split; try done.
  - apply Z.quot_pos; lia.
  - apply Z.quot_lt_upper_bound; lia.
Qed.

Lemma reservoir_fits_main_data_begin_witness :
  0 <= ResvSize
         (ResvFrameEnd
            (ResvAdjust (mk_gr_info 300)
               (set_side_info
                  (set_length (mk_side_info 0 0 (grid_of 0 0 0 0)) 0 0 300)
                  (ResvFrameBegin 417
                     (set_side_info (mk_side_info 0 0 (grid_of 0 0 0 0))
                        (set_mean_bits 1001
                           (sample 2 0 0 0 0 (grid_of 0 0 0 0)))))))) <= 4088
  /\ Z.rem (ResvSize
         (ResvFrameEnd
            (ResvAdjust (mk_gr_info 300)
               (set_side_info
                  (set_length (mk_side_info 0 0 (grid_of 0 0 0 0)) 0 0 300)
                  (ResvFrameBegin 417
                     (set_side_info (mk_side_info 0 0 (grid_of 0 0 0 0))
                        (set_mean_bits 1001
                           (sample 2 0 0 0 0 (grid_of 0 0 0 0))))))))) 8 = 0
  /\ 0 <= ResvSize
         (ResvFrameEnd
            (ResvAdjust (mk_gr_info 300)
               (set_side_info
                  (set_length (mk_side_info 0 0 (grid_of 0 0 0 0)) 0 0 300)
                  (ResvFrameBegin 417
                     (set_side_info (mk_side_info 0 0 (grid_of 0 0 0 0))
                        (set_mean_bits 1001
                           (sample 2 0 0 0 0 (grid_of 0 0 0 0)))))))) ÷ 8 < 2 ^ 9.
Proof.
  apply (reservoir_fits_main_data_begin (sample 2 0 0 0 0 (grid_of 0 0 0 0))).
  - reflexivity.
  - eapply rtc_l; [apply step_FrameBegin|].
    eapply rtc_l; [|eapply rtc_l; [apply step_FrameEnd | apply rtc_refl]].
    apply (step_granule (int_to_double 400) 0 0 300).
    vm_compute. split; discriminate.
Defined.

(** ** A whole frame: begin, report the granules, end *)

(** X19.  For two channels, the four granule reports of a frame followed by
    [ResvFrameEnd] credit the reservoir with the full frame
    [mean_bits << 1] (the [fullFrameBits] of line 34) when [mean_bits] is
    even, and with one bit less when it is odd and not negative: the size
    left plus the stuffing taken out is the size on entry plus the credit
    minus the bits used. *)
Theorem stereo_frame_credit (gis : list gr_info) (config : shine_global_config) :
  channels (wave config) = 2 ->
  0 <= mean_bits config ->
  length gis = 4%nat ->
  ResvSize (ResvFrameEnd (adjust_all gis config))
  + (ResvFrameEnd_reservoir (adjust_all gis config)).2
    = ResvSize config + Z.shiftl (mean_bits config) 1 - row_bits gis
      - (if Z.odd (mean_bits config) then 1 else 0).
Proof.
  intros Hch Hmean Hlen.
  destruct (ResvFrameEnd_ResvSize (adjust_all gis config)) as [-> _].
  rewrite ResvFrameEnd_reservoir_spec. cbn [snd]. unfold frame_stuffing.
  unfold parity_corrected. rewrite adjust_all_formula.
  cbn [wave mean_bits ResvSize set_ResvSize]. rewrite Hch, Hlen.
  rewrite Z.shiftl_mul_pow2 by lia.
  rewrite Z.quot_div_nonneg by lia.
  pose proof (Z.div_mod (mean_bits config) 2 ltac:(lia)) as Hdm.
  rewrite Zmod_odd in Hdm.
  change (2 =? 2) with true. cbn [andb].
  destruct (Z.odd (mean_bits config)); lia.
Qed.

Lemma stereo_frame_credit_witness :
  ResvSize (ResvFrameEnd
              (adjust_all [mk_gr_info 400; mk_gr_info 450; mk_gr_info 500; mk_gr_info 480]
                 (sample 2 1001 64 4088 0 (grid_of 400 450 500 480))))
  + (ResvFrameEnd_reservoir
       (adjust_all [mk_gr_info 400; mk_gr_info 450; mk_gr_info 500; mk_gr_info 480]
          (sample 2 1001 64 4088 0 (grid_of 400 450 500 480)))).2
    = 64 + Z.shiftl 1001 1
      - row_bits [mk_gr_info 400; mk_gr_info 450; mk_gr_info 500; mk_gr_info 480]
      - (if Z.odd 1001 then 1 else 0).
Proof.
  apply (stereo_frame_credit
           [mk_gr_info 400; mk_gr_info 450; mk_gr_info 500; mk_gr_info 480]
           (sample 2 1001 64 4088 0 (grid_of 400 450 500 480))).
  - reflexivity.
  - simpl. lia.
  - reflexivity.
Defined.

(** X20.  For a frame of at most 7680 bits, whatever the granules report
    between [ResvFrameBegin] and [ResvFrameEnd], the frame and the reservoir
    left for the next one together stay within 7680 bits, the bound of the
    comment of line 36. *)
Theorem frame_and_reservoir_within_7680
    (frameLength : Z) (gis : list gr_info) (config : shine_global_config) :
  frameLength <= 7680 ->
  ResvSize (ResvFrameEnd (adjust_all gis (ResvFrameBegin frameLength config)))
  + frameLength <= 7680.
Proof.
  intros Hlen.
  set (c := adjust_all gis (ResvFrameBegin frameLength config)).
  assert (Hmax : ResvMax c = Z.min (7680 - frameLength) 4088).
  { unfold c. rewrite adjust_all_formula, ResvFrameBegin_unfold. simpl.
    destruct (Z.ltb_spec 7680 frameLength); lia. }
  rewrite ResvFrameEnd_ResvSize_quot.
  set (m := Z.min (parity_corrected c) (ResvMax c)).
  pose proof (Z.quot_rem' m 8).
  destruct (Z.le_gt_cases 0 m).
  - pose proof (Z.rem_nonneg m 8). lia.
  - assert (m ÷ 8 <= 0) by (apply Z.quot_le_upper_bound; lia). lia.
Qed.

Lemma frame_and_reservoir_within_7680_witness :
  ResvSize (ResvFrameEnd
              (adjust_all [mk_gr_info 0; mk_gr_info 0; mk_gr_info 0; mk_gr_info 0]
                 (ResvFrameBegin 6000 (sample 2 3000 4000 0 0 (grid_of 0 0 0 0)))))
  + 6000 <= 7680.
Proof.
  apply (frame_and_reservoir_within_7680 6000
           [mk_gr_info 0; mk_gr_info 0; mk_gr_info 0; mk_gr_info 0]
           (sample 2 3000 4000 0 0 (grid_of 0 0 0 0))).
  lia.
Defined.
